(** * Server actions of the dashboard: a shallow embedding and its properties

    The development follows [src/app/lib/action.ts] (the server actions
    [authenticate], [register], [createInvoice], [updateInvoice],
    [deleteInvoice] and the Zod schemas they validate with) and
    [src/auth.config.ts] (the [authorized] callback).

    - JavaScript numbers are IEEE-754 binary64 values: Rocq's primitive
      floats, so [amount * 100] is the very product the program computes.
      A decimal literal such as [19.99] denotes the binary64 value nearest
      to it, as in JavaScript (Rocq prints that value with 17 digits, as
      19.989999999999998).
    - A character of a [string] stands for one UTF-16 code unit, so that
      [String.length] is JavaScript's [.length].
    - An [async] function with [try]/[catch] over a database, a cache and a
      session is a state-and-exception computation, [Action], over the
      [World] those collaborators make up.
    - The collaborators the repository imports but does not define
      (ECMAScript's string-to-number conversion, Zod's e-mail pattern,
      bcrypt, and the [signIn] of [@/auth]) are the fields of the class
      [Runtime]; every general theorem holds for all of them. *)

From Stdlib Require Import Floats Ascii.
From stdpp Require Import gmap strings list pretty.

Set Warnings "-inexact-float,-clear-no-such-hyp".
Set Default Proof Using "Type".

(** ** Values that cross the boundary *)

(** What [FormData.get] can return besides [null] ([None] below). *)
Inductive FormDataEntryValue : Type :=
  | StringEntry (s : string)
  | FileEntry.

(** Submitted fields, in submission order; [get] returns the first entry
    of that name, [null] when there is none. *)
Definition FormData : Type := list (string * FormDataEntryValue).

Fixpoint formData_get (name : string) (formData : FormData)
  : option FormDataEntryValue :=
  match formData with
  | [] => None
  | (k, v) :: rest =>
      if String.eqb k name then Some v else formData_get name rest
  end.

(** An issue of a [ZodError]: the path of the offending key and a message. *)
Record ZodIssue : Type := mkIssue {
  issue_path : list string;
  issue_message : string;
}.

(** What a server action can throw. [error_code] is the [code] property the
    [catch] of [register] reads; only database errors carry one. *)
Inductive Thrown : Type :=
  | AuthError (type : string)
  | RedirectError (url : string)
  | DatabaseError (code : string)
  | ZodError (issues : list ZodIssue)
  | OtherError.

Definition error_code (error : Thrown) : option string :=
  match error with
  | DatabaseError code => Some code
  | _ => None
  end.

(** [isRedirectError] of next/navigation. *)
Definition isRedirectError (error : Thrown) : bool :=
  match error with
  | RedirectError _ => true
  | _ => false
  end.

(** ** The world of an action *)

(** Columns of [users] the program writes. *)
Record UserRow : Type := mkUser {
  user_email : string;
  user_password : string;
  user_name : string;
}.

(** [invoices(id, customer_id, amount, status, date)]. The amount column
    holds the number the statement binds. *)
Record InvoiceRow : Type := mkInvoice {
  invoice_id : string;
  invoice_customer_id : string;
  invoice_amount : float;
  invoice_status : string;
  invoice_date : string;
}.

Record World : Type := mkWorld {
  users : list UserRow;
  invoices : list InvoiceRow;
  (** paths handed to [revalidatePath], oldest first *)
  revalidated : list string;
  (** e-mail of the signed-in user *)
  session : option string;
  (** when [Some e], the store answers the next statement by throwing [e] *)
  db_fault : option Thrown;
  (** when [Some t], the identity provider fails with an [AuthError] of
      type [t] *)
  provider_fault : option string;
  (** what [new Date().toISOString()] returns *)
  now_iso : string;
  (** source of generated invoice ids *)
  id_counter : N;
}.

Definition set_users (f : list UserRow → list UserRow) (w : World) : World :=
  mkWorld (f (users w)) (invoices w) (revalidated w) (session w)
          (db_fault w) (provider_fault w) (now_iso w) (id_counter w).

Definition set_invoices (f : list InvoiceRow → list InvoiceRow) (w : World)
  : World :=
  mkWorld (users w) (f (invoices w)) (revalidated w) (session w)
          (db_fault w) (provider_fault w) (now_iso w) (id_counter w).

Definition set_revalidated (f : list string → list string) (w : World)
  : World :=
  mkWorld (users w) (invoices w) (f (revalidated w)) (session w)
          (db_fault w) (provider_fault w) (now_iso w) (id_counter w).

Definition set_session (s : option string) (w : World) : World :=
  mkWorld (users w) (invoices w) (revalidated w) s
          (db_fault w) (provider_fault w) (now_iso w) (id_counter w).

Definition set_db_fault (fault : option Thrown) (w : World) : World :=
  mkWorld (users w) (invoices w) (revalidated w) (session w)
          fault (provider_fault w) (now_iso w) (id_counter w).

Definition set_provider_fault (fault : option string) (w : World) : World :=
  mkWorld (users w) (invoices w) (revalidated w) (session w)
          (db_fault w) fault (now_iso w) (id_counter w).

Definition bump_id_counter (w : World) : World :=
  mkWorld (users w) (invoices w) (revalidated w) (session w)
          (db_fault w) (provider_fault w) (now_iso w) (N.succ (id_counter w)).

(** ** Actions: state and exceptions *)

Inductive Completion (A : Type) : Type :=
  | Normal (a : A)
  | Throw (error : Thrown).
Arguments Normal {A} a.
Arguments Throw {A} error.

Definition Action (A : Type) : Type := World → Completion A * World.

#[global] Instance action_ret : MRet Action := λ A a w, (Normal a, w).

#[global] Instance action_bind : MBind Action := λ A B k m w,
  match m w with
  | (Normal a, w') => k a w'
  | (Throw error, w') => (Throw error, w')
  end.

#[global] Instance action_throw : MThrow Thrown Action :=
  λ A error w, (Throw error, w).

(** [try { body } catch (error) { handler }] *)
Definition try_catch {A} (body : Action A) (handler : Thrown → Action A)
  : Action A :=
  λ w, match body w with
       | (Normal a, w') => (Normal a, w')
       | (Throw error, w') => handler error w'
       end.

(** [revalidatePath] and [redirect]: the first records the stale path, the
    second throws the navigation signal and never returns. *)
Definition revalidatePath (path : string) : Action unit :=
  λ w, (Normal tt, set_revalidated (λ ps, ps ++ [path]) w).

Definition redirect {A} (url : string) : Action A :=
  mthrow (RedirectError url).

(** ** Collaborators the repository imports *)

Class Runtime : Type := {
  (** ECMAScript StringToNumber, the [Number(s)] of [z.coerce.number()] *)
  StringToNumber : string → float;
  (** Zod's e-mail pattern *)
  emailRegex_test : string → bool;
  (** [bcrypt.hash(password, rounds)] *)
  bcrypt_hash : string → nat → string;
  (** [signIn] of [@/auth], called with a provider and the submitted
      credentials *)
  signIn : string → FormData → Action unit;
}.

(** ** Zod, as far as the schemas of [action.ts] use it

    Zod is not part of the repository; the definitions below follow Zod 3's
    synchronous parser. A schema's [_parse] returns a value with a status
    and adds issues to the shared context: [OK], [DIRTY] (issues were added
    but parsing went on with the value) or [INVALID] (aborted). *)
Module Zod.

Inductive SyncParseReturnType (A : Type) : Type :=
  | OK (value : A)
  | DIRTY (value : A)
  | INVALID.
Arguments OK {A} value.
Arguments DIRTY {A} value.
Arguments INVALID {A}.

(** A parse result together with the issues added while producing it. *)
Definition ParseResult (A : Type) : Type :=
  (SyncParseReturnType A * list ZodIssue)%type.

(** [ParseStatus.mergeObjectSync], one key at a time: an aborted key
    aborts the object, a dirty key makes it dirty; the issues of all keys
    are kept whatever the statuses. *)
Definition merge_status {A B} (f : SyncParseReturnType (A → B))
    (x : SyncParseReturnType A) : SyncParseReturnType B :=
  match f, x with
  | INVALID, _ | _, INVALID => INVALID
  | OK g, OK a => OK (g a)
  | OK g, DIRTY a | DIRTY g, OK a | DIRTY g, DIRTY a => DIRTY (g a)
  end.

Definition object_start {A} (mk : A) : ParseResult A := (OK mk, []).

Definition object_key {A B} (acc : ParseResult (A → B)) (key : ParseResult A)
  : ParseResult B :=
  (merge_status acc.1 key.1, acc.2 ++ key.2).

(** [getParsedType] on what a form field can hold, as the default error
    map prints it. *)
Definition parsedType (input : option FormDataEntryValue) : string :=
  match input with
  | None => "null"
  | Some (StringEntry _) => "string"
  | Some FileEntry => "object"
  end.

(** The error map Zod builds from [{ invalid_type_error }]: the custom
    text answers an invalid type (the input is never [undefined] here),
    every other issue keeps its default message. *)
Definition invalid_type_message (invalid_type_error : option string)
    (expected : string) (input : option FormDataEntryValue) : string :=
  default ("Expected " +:+ expected +:+ ", received " +:+ parsedType input)
          invalid_type_error.

Inductive StringCheck : Type :=
  | check_email
  | check_min (value : nat).

Section with_runtime.
Context `{Runtime}.

Definition string_check_issue (path : list string) (data : string)
    (check : StringCheck) : list ZodIssue :=
  match check with
  | check_min value =>
      if String.length data <? value
      then [mkIssue path ("String must contain at least "
                          +:+ pretty value +:+ " character(s)")]
      else []
  | check_email =>
      if emailRegex_test data then [] else [mkIssue path "Invalid email"]
  end.

(** [ZodString._parse]: a non-string aborts; every failing check adds
    its issue and marks the result dirty. *)
Definition string_parse (invalid_type_error : option string)
    (checks : list StringCheck) (path : list string)
    (input : option FormDataEntryValue) : ParseResult string :=
  match input with
  | Some (StringEntry data) =>
      let issues := flat_map (string_check_issue path data) checks in
      (match issues with [] => OK data | _ => DIRTY data end, issues)
  | _ =>
      (INVALID,
       [mkIssue path (invalid_type_message invalid_type_error "string" input)])
  end.

(** [Number(x)] on a form field: [null] is [0], a [File] is [NaN]. *)
Definition Number (input : option FormDataEntryValue) : float :=
  match input with
  | None => 0%float
  | Some (StringEntry s) => StringToNumber s
  | Some FileEntry => nan
  end.

(** [z.coerce.number().gt(value, { message })]: the input is coerced
    first; [NaN] is an invalid type and aborts; a number not above the
    bound adds the custom message and is dirty. *)
Definition coerce_number_gt_parse (value : float) (message : string)
    (path : list string) (input : option FormDataEntryValue)
  : ParseResult float :=
  let data := Number input in
  if PrimFloat.is_nan data
  then (INVALID, [mkIssue path "Expected number, received nan"])
  else if PrimFloat.leb data value
       then (DIRTY data, [mkIssue path message])
       else (OK data, []).

End with_runtime.

Definition joinValues (values : list string) : string :=
  String.concat " | " (map (λ v, "'" +:+ v +:+ "'") values).

(** [ZodEnum._parse]: a non-string is an invalid type, a string outside
    the values an invalid enum value; both abort. *)
Definition enum_parse (values : list string)
    (invalid_type_error : option string) (path : list string)
    (input : option FormDataEntryValue) : ParseResult string :=
  match input with
  | Some (StringEntry data) =>
      if bool_decide (data ∈ values)
      then (OK data, [])
      else (INVALID,
            [mkIssue path ("Invalid enum value. Expected " +:+ joinValues values
                           +:+ ", received '" +:+ data +:+ "'")])
  | _ =>
      (INVALID,
       [mkIssue path
          (invalid_type_message invalid_type_error (joinValues values) input)])
  end.

(** [schema.refine(check, { message, path })] ([ZodEffects._parse]): an
    aborted inner result is returned as it is and the check does not run;
    otherwise the check runs on the inner value, dirty or not, and a
    failure adds the issue and marks the result dirty. *)
Definition refine {A} (check : A → bool) (message : string)
    (path : list string) (inner : ParseResult A) : ParseResult A :=
  match inner with
  | (INVALID, issues) => (INVALID, issues)
  | (OK value, issues) =>
      if check value then (OK value, issues)
      else (DIRTY value, issues ++ [mkIssue path message])
  | (DIRTY value, issues) =>
      if check value then (DIRTY value, issues)
      else (DIRTY value, issues ++ [mkIssue path message])
  end.

(** [safeParse]: success only for a valid result; otherwise the error
    holds every issue of the context. [parse] throws that error. *)
Inductive SafeParseReturnType (A : Type) : Type :=
  | SafeParseSuccess (data : A)
  | SafeParseError (issues : list ZodIssue).
Arguments SafeParseSuccess {A} data.
Arguments SafeParseError {A} issues.

Definition safeParse {A} (result : ParseResult A) : SafeParseReturnType A :=
  match result with
  | (OK value, _) => SafeParseSuccess value
  | (_, issues) => SafeParseError issues
  end.

Definition parse {A} (result : ParseResult A) : Action A :=
  match safeParse result with
  | SafeParseSuccess data => mret data
  | SafeParseError issues => mthrow (ZodError issues)
  end.

(** [error.flatten().fieldErrors]: the messages of the issues, grouped
    by the first key of their path, in issue order; issues with an empty
    path go to [formErrors] and are not part of it. *)
Definition flatten_step (fieldErrors : gmap string (list string))
    (sub : ZodIssue) : gmap string (list string) :=
  match issue_path sub with
  | [] => fieldErrors
  | key :: _ =>
      <[key := default [] (fieldErrors !! key) ++ [issue_message sub]]>
        fieldErrors
  end.

Definition fieldErrors (issues : list ZodIssue) : gmap string (list string) :=
  foldl flatten_step ∅ issues.

End Zod.

Import Zod.

(** ** The relational store

    One tagged-template [sql] call is one statement. A store that is down
    ([db_fault]) throws and changes nothing; otherwise the statement runs
    on the tables and resolves to its [rowCount]. *)

(** Modelled from the spec: the table definitions are not in the
    repository; section 6 gives them as [users(id, email UNIQUE, password,
    name)], so an insert of a present e-mail is refused with PostgreSQL's
    unique-violation code 23505. *)
Definition unique_violation : string := "23505".

Definition sql_insert_user (row : UserRow) : Action nat :=
  λ w, match db_fault w with
       | Some error => (Throw error, w)
       | None =>
           if bool_decide (user_email row ∈ map user_email (users w))
           then (Throw (DatabaseError unique_violation), w)
           else (Normal 1, set_users (λ rows, rows ++ [row]) w)
       end.

(** [INSERT INTO invoices (customer_id, amount, status, date)]: the store
    generates the id. The table definition is not in the repository: the
    row keeps the number the statement binds, whatever it is. A store
    whose amount column refuses a bound value (an integer column given a
    fraction) answers with an error, which is a [db_fault] here; what is
    proved about a new or updated row reads "when the store accepts the
    statement". *)
Definition sql_insert_invoice (customer_id : string) (amount : float)
    (status date : string) : Action nat :=
  λ w, match db_fault w with
       | Some error => (Throw error, w)
       | None =>
           let row := mkInvoice (pretty (id_counter w)) customer_id amount
                                status date in
           (Normal 1, bump_id_counter (set_invoices (λ rows, rows ++ [row]) w))
       end.

(** [UPDATE invoices SET customer_id = .., amount = .., status = ..
    WHERE id = ..] on one row. *)
Definition update_row (id customer_id : string) (amount : float)
    (status : string) (row : InvoiceRow) : InvoiceRow :=
  if String.eqb (invoice_id row) id
  then mkInvoice (invoice_id row) customer_id amount status (invoice_date row)
  else row.

Definition matching (id : string) (rows : list InvoiceRow) : list InvoiceRow :=
  filter (λ row, invoice_id row = id) rows.

Definition sql_update_invoice (id customer_id : string) (amount : float)
    (status : string) : Action nat :=
  λ w, match db_fault w with
       | Some error => (Throw error, w)
       | None =>
           (Normal (length (matching id (invoices w))),
            set_invoices (map (update_row id customer_id amount status)) w)
       end.

(** [DELETE FROM invoices WHERE id = ..] *)
Definition sql_delete_invoice (id : string) : Action nat :=
  λ w, match db_fault w with
       | Some error => (Throw error, w)
       | None =>
           (Normal (length (matching id (invoices w))),
            set_invoices (filter (λ row, invoice_id row ≠ id)) w)
       end.

(** [new Date().toISOString().split('T')[0]] *)
Fixpoint split_head (sep : ascii) (s : string) : string :=
  match s with
  | EmptyString => EmptyString
  | String c rest =>
      if Ascii.eqb c sep then EmptyString else String c (split_head sep rest)
  end.

Definition today : Action string :=
  λ w, (Normal (split_head "T"%char (now_iso w)), w).

(** ** The schemas and actions of [action.ts] *)

(** Output of [RegisterSchema]. *)
Record RegisterData : Type := mkRegisterData {
  reg_email : string;
  reg_name : string;
  reg_password : string;
  reg_confirmPassword : string;
}.

(** Output of [CreateInvoice] and [UpdateInvoice] ([FormSchema] without
    [id] and [date]). *)
Record InvoiceData : Type := mkInvoiceData {
  customerId : string;
  amount : float;
  status : string;
}.

(** [State] and [RegisterState]: optional field errors and a message. *)
Record State : Type := mkState {
  errors : option (gmap string (list string));
  message : option string;
}.

Definition message_only (text : string) : State := mkState None (Some text).

Section actions.
Context `{Runtime}.

Definition RegisterSchema_parse
    (email name password confirmPassword : option FormDataEntryValue)
  : ParseResult RegisterData :=
  object_key (object_key (object_key (object_key
    (object_start mkRegisterData)
    (string_parse None [check_email] ["email"] email))
    (string_parse None [check_min 1] ["name"] name))
    (string_parse None [check_min 6] ["password"] password))
    (string_parse None [check_min 6] ["confirmPassword"] confirmPassword).

Definition FullRegisterSchema_parse
    (email name password confirmPassword : option FormDataEntryValue)
  : ParseResult RegisterData :=
  refine (λ data, bool_decide (reg_confirmPassword data = reg_password data))
         "Password does not match" ["confirmPassword"]
         (RegisterSchema_parse email name password confirmPassword).

(** The keys of [FormSchema] that [CreateInvoice] and [UpdateInvoice]
    keep. *)
Definition FormSchema_customerId : option FormDataEntryValue → ParseResult string :=
  string_parse (Some "Please select a customer.") [] ["customerId"].

Definition FormSchema_amount : option FormDataEntryValue → ParseResult float :=
  coerce_number_gt_parse 0 "Please enter an amount greater than $0." ["amount"].

Definition FormSchema_status : option FormDataEntryValue → ParseResult string :=
  enum_parse ["pending"; "paid"] (Some "Please select an invoice status.")
             ["status"].

Definition CreateInvoice_parse
    (customerId amount status : option FormDataEntryValue)
  : ParseResult InvoiceData :=
  object_key (object_key (object_key
    (object_start mkInvoiceData)
    (FormSchema_customerId customerId))
    (FormSchema_amount amount))
    (FormSchema_status status).

Definition UpdateInvoice_parse
    (customerId amount status : option FormDataEntryValue)
  : ParseResult InvoiceData :=
  object_key (object_key (object_key
    (object_start mkInvoiceData)
    (FormSchema_customerId customerId))
    (FormSchema_amount amount))
    (FormSchema_status status).

Definition authenticate (prevState : option string) (formData : FormData)
  : Action (option string) :=
  try_catch
    (signIn "credentials" formData;; mret None)
    (λ error,
       match error with
       | AuthError type =>
           if String.eqb type "CredentialsSignin"
           then mret (Some "Invalid credentials.")
           else mret (Some "Something went wrong.")
       | _ => mthrow error
       end).

Definition createUser (email password name : string) : Action nat :=
  sql_insert_user (mkUser email password name).

Definition register (prevState : option State) (formData : FormData)
  : Action (option State) :=
  try_catch
    (match safeParse (FullRegisterSchema_parse
                        (formData_get "email" formData)
                        (formData_get "name" formData)
                        (formData_get "password" formData)
                        (formData_get "confirm-password" formData)) with
     | SafeParseError issues =>
         mret (Some (mkState
                 (Some (fieldErrors issues))
                 (Some "Missing Fields. Failed to Create User, please try again.")))
     | SafeParseSuccess data =>
         let email := reg_email data in
         let password := reg_password data in
         let name := reg_name data in
         let hashedPassword := bcrypt_hash password 10 in
         rowCount ← createUser email hashedPassword name;
         if negb (rowCount =? 1)
         then mret (Some (message_only "Database error. Failed to create user."))
         else
           signIn "credentials"
                  [("email", StringEntry email); ("password", StringEntry password)];;
           mret None
     end)
    (λ error,
       if bool_decide (error_code error = Some "23505")
       then mret (Some (message_only "Email already exists. Please sign in."))
       else if isRedirectError error
       then redirect "/dashboard"
       else mret (Some (message_only "Something went wrong, please try again."))).

(** [const amountInCents = amount * 100] *)
Definition amountInCents (amount : float) : float := (amount * 100)%float.

Definition createInvoice (prevState : State) (formData : FormData)
  : Action State :=
  match safeParse (CreateInvoice_parse
                     (formData_get "customerId" formData)
                     (formData_get "amount" formData)
                     (formData_get "status" formData)) with
  | SafeParseError issues =>
      mret (mkState (Some (fieldErrors issues))
                    (Some "Missing Fields. Failed to Create Invoice."))
  | SafeParseSuccess data =>
      date ← today;
      caught ← try_catch
        (sql_insert_invoice (customerId data) (amountInCents (amount data))
                            (status data) date;;
         mret None)
        (λ error,
           mret (Some (message_only "Database Error: Failed to Create Invoice.")));
      match caught with
      | Some result => mret result
      | None =>
          revalidatePath "/dashboard/invoices";;
          redirect "/dashboard/invoices"
      end
  end.

Definition updateInvoice (id : string) (formData : FormData) : Action State :=
  data ← parse (UpdateInvoice_parse
                  (formData_get "customerId" formData)
                  (formData_get "amount" formData)
                  (formData_get "status" formData));
  caught ← try_catch
    (sql_update_invoice id (customerId data) (amountInCents (amount data))
                        (status data);;
     mret None)
    (λ error,
       mret (Some (message_only "Database Error: Failed to Update Invoice.")));
  match caught with
  | Some result => mret result
  | None =>
      revalidatePath "/dashboard/invoices";;
      redirect "/dashboard/invoices"
  end.

Definition deleteInvoice (id : string) : Action State :=
  try_catch
    (sql_delete_invoice id;;
     revalidatePath "/dashboard/invoices";;
     mret (message_only "Deleted Invoice."))
    (λ error, mret (message_only "Database Error: Failed to Delete Invoice.")).

End actions.

(** ** The [authorized] callback of [auth.config.ts] *)

(** The session handed to the callback: [auth?.user]. *)
Record Session : Type := mkSession {
  session_user : option string;
}.

Record NextURL : Type := mkURL {
  origin : string;
  pathname : string;
  search : string;
}.

(** The callback answers [true], [false] or a redirect response. *)
Inductive AuthorizedResult : Type :=
  | Granted (allowed : bool)
  | ResponseRedirect (url : NextURL).

(** [new URL('/dashboard', nextUrl)]: an absolute path against a base keeps
    the base's origin only. *)
Definition dashboard_url (base : NextURL) : NextURL :=
  mkURL (origin base) "/dashboard" "".

Definition isLoggedIn (auth : option Session) : bool :=
  match auth with
  | Some s => match session_user s with Some _ => true | None => false end
  | None => false
  end.

Definition isOnDashboard (nextUrl : NextURL) : bool :=
  String.prefix "/dashboard" (pathname nextUrl).

Definition authorized (auth : option Session) (nextUrl : NextURL)
  : AuthorizedResult :=
  if isOnDashboard nextUrl then
    if isLoggedIn auth then Granted true else Granted false
  else if isLoggedIn auth then ResponseRedirect (dashboard_url nextUrl)
  else Granted true.

(** ** A reference runtime

    Closed examples need concrete collaborators. [decimal_to_number] reads
    the plain decimal literals of ECMAScript's StringToNumber (an optional
    sign, digits, an optional fraction), the empty string as [0] and
    anything else as [NaN]; with at most 15 digits in all, the quotient of
    the two exactly represented integers is the correctly rounded value, as
    in JavaScript. It is a stand-in for the examples only: padded,
    exponent, hexadecimal and [Infinity] literals, which JavaScript reads
    as numbers, are [NaN] here, and longer digit strings are not rounded
    correctly. No general statement depends on it. *)
Definition digit_value (c : Ascii.ascii) : option Z :=
  let n := Z.of_nat (Ascii.nat_of_ascii c) in
  if bool_decide (48 ≤ n ≤ 57)%Z then Some (n - 48)%Z else None.

Fixpoint digits_value (acc : Z) (s : string) : option Z :=
  match s with
  | EmptyString => Some acc
  | String c rest =>
      match digit_value c with
      | Some d => digits_value (10 * acc + d)%Z rest
      | None => None
      end
  end.

Definition float_of_Z (z : Z) : float := PrimFloat.of_uint63 (Uint63.of_Z z).

Definition unsigned_decimal (s : string) : float :=
  let whole := split_head "."%char s in
  let fraction :=
    String.substring (S (String.length whole))
                     (String.length s - S (String.length whole)) s in
  if bool_decide (whole = EmptyString ∧ fraction = EmptyString) then nan
  else
    match digits_value 0 whole with
    | Some w =>
        match digits_value w fraction with
        | Some m =>
            (float_of_Z m / float_of_Z (10 ^ Z.of_nat (String.length fraction)))%float
        | None => nan
        end
    | None => nan
    end.

Definition decimal_to_number (s : string) : float :=
  match s with
  | EmptyString => 0%float
  | String "-" rest => (- unsigned_decimal rest)%float
  | String "+" rest => unsigned_decimal rest
  | _ => unsigned_decimal s
  end.

(** A stand-in for Zod's e-mail pattern, for the examples only: something,
    an at sign, something. It is coarser than the pattern (it accepts a
    domain without a dot); no general statement depends on it. *)
Fixpoint has_at_inside (seen : bool) (s : string) : bool :=
  match s with
  | EmptyString => false
  | String c rest =>
      if Ascii.eqb c "@"%char
      then seen && negb (String.eqb rest EmptyString)
      else has_at_inside true rest
  end.

(** A stand-in for bcrypt: deterministic, tagged with the cost. *)
Definition tagged_hash (password : string) (rounds : nat) : string :=
  "$2b$" +:+ pretty rounds +:+ "$" +:+ password.

(** Modelled from the spec: the Session Establisher, [signIn] of [@/auth],
    which the repository's files here do not include. Section 4.4: given
    credentials it verifies them against the stored users, comparing the
    supplied password against the stored hash; on success it establishes a
    session; on failure it reports invalid credentials or a generic
    authentication failure. Section 6: on success navigation is already
    triggered, which the session provider does by raising the navigation
    signal. *)
Definition signIn_spec (hash : string → nat → string) (provider : string)
    (credentials : FormData) : Action unit :=
  λ w, match provider_fault w with
       | Some type => (Throw (AuthError type), w)
       | None =>
           match formData_get "email" credentials,
                 formData_get "password" credentials with
           | Some (StringEntry email), Some (StringEntry password) =>
               if existsb (λ u, String.eqb (user_email u) email
                                && String.eqb (user_password u) (hash password 10))
                          (users w)
               then (Throw (RedirectError "/dashboard"), set_session (Some email) w)
               else (Throw (AuthError "CredentialsSignin"), w)
           | _, _ => (Throw (AuthError "CredentialsSignin"), w)
           end
       end.

Definition reference_runtime : Runtime := {|
  StringToNumber := decimal_to_number;
  emailRegex_test := has_at_inside false;
  bcrypt_hash := tagged_hash;
  signIn := signIn_spec tagged_hash;
|}.

Definition empty_world : World :=
  mkWorld [] [] [] None None None "2024-05-17T09:30:00.000Z" 0.

(** ** Vocabulary of the statements *)

(** The messages of the issues filed under [key], in issue order: what
    [fieldErrors] is expected to hold there. *)
Definition messages_at (key : string) (issues : list ZodIssue) : list string :=
  issue_message <$> filter (λ sub, head (issue_path sub) = Some key) issues.

(** A JavaScript object has a property only once something was stored. *)
Definition property_of_list (messages : list string) : option (list string) :=
  match messages with
  | [] => None
  | _ => Some messages
  end.

(** The columns an [UPDATE] of [action.ts] never assigns. *)
Definition same_id_and_date (before after : InvoiceRow) : Prop :=
  invoice_id after = invoice_id before ∧ invoice_date after = invoice_date before.

(** Sample submissions. *)
Definition invoice_form (customer amount status : string) : FormData :=
  [("customerId", StringEntry customer); ("amount", StringEntry amount);
   ("status", StringEntry status)].

Definition register_form (email name password confirm : string) : FormData :=
  [("email", StringEntry email); ("name", StringEntry name);
   ("password", StringEntry password); ("confirm-password", StringEntry confirm)].

Definition one_user_world : World :=
  set_users (λ _, [mkUser "ada@example.com" (tagged_hash "lovelace" 10) "Ada"])
            empty_world.

Definition two_invoice_world : World :=
  set_invoices
    (λ _, [mkInvoice "a1" "c1" 1500 "pending" "2024-01-02";
           mkInvoice "b2" "c2" 990 "paid" "2024-02-03"])
    empty_world.

(** The store refuses connections (PostgreSQL's 08006). *)
Definition store_down_world : World :=
  set_db_fault (Some (DatabaseError "08006")) two_invoice_world.

(** The identity provider fails for a reason other than the credentials. *)
Definition provider_down_world : World :=
  set_provider_fault (Some "CallbackRouteError") one_user_world.

(** A session provider asked not to navigate: a sign-in that verifies
    nothing, records the session and returns. *)
Definition signIn_returning (provider : string) (credentials : FormData)
  : Action unit :=
  λ w, match formData_get "email" credentials with
       | Some (StringEntry email) => (Normal tt, set_session (Some email) w)
       | _ => (Normal tt, w)
       end.

Definition returning_runtime : Runtime := {|
  StringToNumber := decimal_to_number;
  emailRegex_test := has_at_inside false;
  bcrypt_hash := tagged_hash;
  signIn := signIn_returning;
|}.

(** The characters of a string are all different from [c]. *)
Definition without_char (c : Ascii.ascii) (s : string) : Prop :=
  Forall (λ d, d ≠ c) (String.list_ascii_of_string s).

(** * Properties *)

(** ** The action monad *)

Lemma bind_normal {A B} (m : Action A) (k : A → Action B) w a w' :
  m w = (Normal a, w') → (m ≫= k) w = k a w'.
Proof. intros Hm. unfold mbind, action_bind. by rewrite Hm. Qed.

Lemma bind_throw {A B} (m : Action A) (k : A → Action B) w error w' :
  m w = (Throw error, w') → (m ≫= k) w = (Throw error, w').
Proof. intros Hm. unfold mbind, action_bind. by rewrite Hm. Qed.

Lemma try_catch_normal {A} (body : Action A) handler w a w' :
  body w = (Normal a, w') → try_catch body handler w = (Normal a, w').
Proof. intros Hb. unfold try_catch. by rewrite Hb. Qed.

Lemma try_catch_throw {A} (body : Action A) handler w error w' :
  body w = (Throw error, w') → try_catch body handler w = handler error w'.
Proof. intros Hb. unfold try_catch. by rewrite Hb. Qed.

(** ** The store *)

(** A statement that throws leaves the world as it was. *)
Lemma sql_insert_user_throw row w error w' :
  sql_insert_user row w = (Throw error, w') → w' = w.
Proof.
  unfold sql_insert_user. destruct (db_fault w); [congruence|].
  case_bool_decide; congruence.
Qed.

Lemma sql_delete_invoice_throw id w error w' :
  sql_delete_invoice id w = (Throw error, w') → w' = w.
Proof. unfold sql_delete_invoice. destruct (db_fault w); congruence. Qed.

Lemma sql_delete_invoice_normal id w n w' :
  sql_delete_invoice id w = (Normal n, w') →
  w' = set_invoices (filter (λ row, invoice_id row ≠ id)) w.
Proof. unfold sql_delete_invoice. destruct (db_fault w); congruence. Qed.

(** An updated row keeps its id and date, and is untouched unless its id is
    the one asked for. *)
Lemma update_row_frame id customer_id amount status row :
  same_id_and_date row (update_row id customer_id amount status row)
  ∧ (invoice_id row ≠ id → update_row id customer_id amount status row = row).
Proof.
  unfold update_row, same_id_and_date.
  destruct (String.eqb_spec (invoice_id row) id); naive_solver.
Qed.

(** ** [fieldErrors] *)

Lemma flatten_fold_lookup issues (acc : gmap string (list string)) key :
  foldl flatten_step acc issues !! key =
    match messages_at key issues with
    | [] => acc !! key
    | messages => Some (default [] (acc !! key) ++ messages)
    end.
Proof.
  revert acc. induction issues as [|sub issues IH]; intros acc; [done|].
  cbn [foldl]. rewrite IH. unfold messages_at, flatten_step.
  rewrite filter_cons.
  destruct sub as [[|k path] msg]; cbn [issue_path issue_message head].
  - rewrite decide_False by done. done.
  - destruct (decide (k = key)) as [->|Hne].
    + rewrite decide_True by done. rewrite fmap_cons. cbn [issue_message].
      rewrite lookup_insert_eq. cbn [default].
      destruct (issue_message <$> _) as [|m ms]; [done|].
      unfold id. by rewrite <- app_assoc.
    + rewrite decide_False by congruence.
      by rewrite lookup_insert_ne.
Qed.

(** Under each key, [fieldErrors] holds exactly the messages of the issues
    filed there, and no property for a key without issues. *)
Lemma fieldErrors_lookup issues key :
  fieldErrors issues !! key = property_of_list (messages_at key issues).
Proof.
  unfold fieldErrors. rewrite flatten_fold_lookup, lookup_empty.
  by destruct (messages_at key issues).
Qed.

Lemma messages_at_app key issues1 issues2 :
  messages_at key (issues1 ++ issues2)
  = messages_at key issues1 ++ messages_at key issues2.
Proof. unfold messages_at. by rewrite filter_app, fmap_app. Qed.

(** ** Issues of the key schemas *)

Lemma messages_at_same key issues :
  Forall (λ sub, issue_path sub = [key]) issues →
  messages_at key issues = issue_message <$> issues.
Proof.
  unfold messages_at. induction 1 as [|sub issues Hsub _ IH]; [done|].
  rewrite filter_cons, decide_True by (by rewrite Hsub). by rewrite !fmap_cons, IH.
Qed.

Lemma messages_at_other key key' issues :
  key ≠ key' →
  Forall (λ sub, issue_path sub = [key']) issues →
  messages_at key issues = [].
Proof.
  intros Hne. unfold messages_at. induction 1 as [|sub issues Hsub _ IH]; [done|].
  rewrite filter_cons, decide_False; [done|]. rewrite Hsub. cbn. congruence.
Qed.

Lemma safeParse_error {A} (result : ParseResult A) issues :
  safeParse result = SafeParseError issues →
  issues = result.2 ∧ ∀ value, result.1 ≠ OK value.
Proof. destruct result as [[v|v|] iss]; cbn; naive_solver. Qed.

Lemma safeParse_success {A} (result : ParseResult A) data :
  safeParse result = SafeParseSuccess data → result.1 = OK data.
Proof. destruct result as [[v|v|] iss]; cbn; naive_solver. Qed.

Lemma enum_parse_paths values invalid_type_error path input :
  Forall (λ sub, issue_path sub = path)
         (enum_parse values invalid_type_error path input).2.
Proof.
  unfold enum_parse. destruct input as [[data|]|]; cbn;
    try case_bool_decide; cbn; repeat constructor.
Qed.

Lemma enum_parse_not_OK values invalid_type_error path input :
  (∀ value, (enum_parse values invalid_type_error path input).1 ≠ OK value) →
  (enum_parse values invalid_type_error path input).2 ≠ [].
Proof.
  unfold enum_parse. destruct input as [[data|]|]; cbn; [|done..].
  case_bool_decide; cbn; naive_solver.
Qed.

Section schemas.
Context `{Runtime}.

Lemma string_parse_paths invalid_type_error checks path input :
  Forall (λ sub, issue_path sub = path)
         (string_parse invalid_type_error checks path input).2.
Proof.
  unfold string_parse. destruct input as [[data|]|]; cbn;
    [|by repeat constructor..].
  induction checks as [|check checks IH]; cbn; [constructor|].
  apply Forall_app. split; [|done].
  destruct check; cbn; repeat case_match; repeat constructor.
Qed.

Lemma coerce_number_gt_parse_paths value message path input :
  Forall (λ sub, issue_path sub = path)
         (coerce_number_gt_parse value message path input).2.
Proof.
  unfold coerce_number_gt_parse. repeat case_match; cbn; repeat constructor.
Qed.

(** A key schema that did not end [OK] has filed an issue. *)
Lemma string_parse_not_OK invalid_type_error checks path input :
  (∀ value, (string_parse invalid_type_error checks path input).1 ≠ OK value) →
  (string_parse invalid_type_error checks path input).2 ≠ [].
Proof.
  unfold string_parse. destruct input as [[data|]|]; cbn; [|done..].
  destruct (flat_map _ _); naive_solver.
Qed.

Lemma coerce_number_gt_parse_not_OK value message path input :
  (∀ data, (coerce_number_gt_parse value message path input).1 ≠ OK data) →
  (coerce_number_gt_parse value message path input).2 ≠ [].
Proof.
  unfold coerce_number_gt_parse. repeat case_match; cbn; naive_solver.
Qed.

(** The object schemas file the issues of all their keys, in key order,
    whatever the statuses of the keys. *)
Lemma CreateInvoice_parse_issues customer amt st :
  (CreateInvoice_parse customer amt st).2
  = (FormSchema_customerId customer).2 ++ (FormSchema_amount amt).2
    ++ (FormSchema_status st).2.
Proof. unfold CreateInvoice_parse, object_key, object_start. cbn. by rewrite app_assoc. Qed.

Lemma UpdateInvoice_parse_eq customer amt st :
  UpdateInvoice_parse customer amt st = CreateInvoice_parse customer amt st.
Proof. reflexivity. Qed.

Lemma RegisterSchema_parse_issues email name password confirm :
  (RegisterSchema_parse email name password confirm).2
  = (string_parse None [check_email] ["email"] email).2
    ++ (string_parse None [check_min 1] ["name"] name).2
    ++ (string_parse None [check_min 6] ["password"] password).2
    ++ (string_parse None [check_min 6] ["confirmPassword"] confirm).2.
Proof.
  unfold RegisterSchema_parse, object_key, object_start. cbn.
  by rewrite !app_assoc.
Qed.

(** The invoice object is valid exactly when its three keys are. *)
Lemma CreateInvoice_parse_OK customer amt st data :
  (CreateInvoice_parse customer amt st).1 = OK data ↔
  (FormSchema_customerId customer).1 = OK (customerId data)
  ∧ (FormSchema_amount amt).1 = OK (amount data)
  ∧ (FormSchema_status st).1 = OK (status data).
Proof.
  unfold CreateInvoice_parse, object_key, object_start. cbn.
  destruct (FormSchema_customerId customer).1, (FormSchema_amount amt).1,
    (FormSchema_status st).1, data; cbn; naive_solver.
Qed.

(** What the three key schemas accept. *)
Lemma FormSchema_customerId_OK input value :
  (FormSchema_customerId input).1 = OK value ↔ input = Some (StringEntry value).
Proof.
  unfold FormSchema_customerId, string_parse.
  destruct input as [[data|]|]; cbn; naive_solver.
Qed.

Lemma FormSchema_amount_OK input value :
  (FormSchema_amount input).1 = OK value ↔
  Number input = value ∧ PrimFloat.is_nan value = false
  ∧ PrimFloat.leb value 0 = false.
Proof.
  unfold FormSchema_amount, coerce_number_gt_parse.
  destruct (PrimFloat.is_nan (Number input)) eqn:Hnan;
    [|destruct (PrimFloat.leb (Number input) 0) eqn:Hle]; cbn;
    split; try naive_solver.
  - intros (<- & ? & ?). congruence.
  - intros (<- & ? & ?). congruence.
Qed.

Lemma FormSchema_status_OK input value :
  (FormSchema_status input).1 = OK value ↔
  input = Some (StringEntry value) ∧ (value = "pending" ∨ value = "paid").
Proof.
  unfold FormSchema_status, enum_parse.
  destruct input as [[data|]|]; cbn; [|naive_solver..].
  case_bool_decide as Hin; cbn.
  - set_unfold. naive_solver.
  - set_unfold. split; [done|]. intros [[= ->] ?]. naive_solver.
Qed.

End schemas.

(** ** Invoices *)

Section invoices.
Context `{Runtime}.

(** A rejected invoice submission has at least one issue. *)
Lemma CreateInvoice_parse_error_nonempty customer amt st issues :
  safeParse (CreateInvoice_parse customer amt st) = SafeParseError issues →
  issues ≠ [].
Proof.
  intros [-> Hnot]%safeParse_error. rewrite CreateInvoice_parse_issues.
  intros (Hc & (Ha & Hs)%app_eq_nil)%app_eq_nil.
  revert Hnot. unfold CreateInvoice_parse, object_key, object_start. cbn.
  unfold FormSchema_customerId, FormSchema_amount, FormSchema_status in *.
  unfold string_parse, coerce_number_gt_parse, enum_parse in *.
  repeat case_match; simplify_eq/=; naive_solver.
Qed.

(** The field errors of a rejected invoice submission, key by key. *)
Lemma CreateInvoice_fieldErrors customer amt st :
  let fe := fieldErrors (CreateInvoice_parse customer amt st).2 in
  fe !! "customerId"
    = property_of_list (issue_message <$> (FormSchema_customerId customer).2)
  ∧ fe !! "amount"
    = property_of_list (issue_message <$> (FormSchema_amount amt).2)
  ∧ fe !! "status"
    = property_of_list (issue_message <$> (FormSchema_status st).2).
Proof.
  cbn zeta. rewrite !fieldErrors_lookup, CreateInvoice_parse_issues.
  rewrite !messages_at_app.
  pose proof (string_parse_paths (Some "Please select a customer.") []
                ["customerId"] customer) as Hc.
  pose proof (coerce_number_gt_parse_paths 0
                "Please enter an amount greater than $0." ["amount"] amt) as Ha.
  pose proof (enum_parse_paths ["pending"; "paid"]
                (Some "Please select an invoice status.") ["status"] st) as Hs.
  fold (FormSchema_customerId customer) in Hc.
  fold (FormSchema_amount amt) in Ha.
  fold (FormSchema_status st) in Hs.
  rewrite (messages_at_other "customerId" "amount" _ ltac:(done) Ha),
    (messages_at_other "customerId" "status" _ ltac:(done) Hs),
    (messages_at_other "amount" "customerId" _ ltac:(done) Hc),
    (messages_at_other "amount" "status" _ ltac:(done) Hs),
    (messages_at_other "status" "customerId" _ ltac:(done) Hc),
    (messages_at_other "status" "amount" _ ltac:(done) Ha).
  rewrite (messages_at_same _ _ Hc), (messages_at_same _ _ Ha),
    (messages_at_same _ _ Hs).
  by rewrite !app_nil_r.
Qed.

(** What the amount key files. *)
Lemma FormSchema_amount_issues amt :
  issue_message <$> (FormSchema_amount amt).2 =
    if PrimFloat.is_nan (Number amt) then ["Expected number, received nan"]
    else if PrimFloat.leb (Number amt) 0
         then ["Please enter an amount greater than $0."]
         else [].
Proof.
  unfold FormSchema_amount, coerce_number_gt_parse. by repeat case_match.
Qed.

End invoices.

Section invoice_actions.
Context `{Runtime}.

(** The invoice schemas accept a submission exactly when [customerId] is a
    string, [amount] coerces to a number above zero, and [status] is the
    string [pending] or [paid]. *)
Lemma invoice_validation_success formData data :
  safeParse (CreateInvoice_parse (formData_get "customerId" formData)
               (formData_get "amount" formData) (formData_get "status" formData))
    = SafeParseSuccess data ↔
  formData_get "customerId" formData = Some (StringEntry (customerId data))
  ∧ Number (formData_get "amount" formData) = amount data
  ∧ PrimFloat.is_nan (amount data) = false
  ∧ PrimFloat.leb (amount data) 0 = false
  ∧ formData_get "status" formData = Some (StringEntry (status data))
  ∧ (status data = "pending" ∨ status data = "paid").
Proof.
  split.
  - intros Hparse%safeParse_success.
    apply CreateInvoice_parse_OK in Hparse as (Hc & Ha & Hs).
    apply FormSchema_customerId_OK in Hc. apply FormSchema_amount_OK in Ha.
    apply FormSchema_status_OK in Hs. naive_solver.
  - intros (Hc & Hn & Hnan & Hle & Hs & Hv).
    assert ((CreateInvoice_parse (formData_get "customerId" formData)
               (formData_get "amount" formData)
               (formData_get "status" formData)).1 = OK data) as HOK.
    { apply CreateInvoice_parse_OK. split_and!.
      - by apply FormSchema_customerId_OK.
      - by apply FormSchema_amount_OK.
      - by apply FormSchema_status_OK. }
    destruct (CreateInvoice_parse _ _ _) as [[]]; cbn in *; congruence.
Qed.

(** An amount that coerces to a number not above zero is rejected. *)
Lemma amount_not_positive_rejected formData :
  PrimFloat.leb (Number (formData_get "amount" formData)) 0 = true →
  ∃ issues,
    safeParse (CreateInvoice_parse (formData_get "customerId" formData)
                 (formData_get "amount" formData) (formData_get "status" formData))
      = SafeParseError issues.
Proof.
  intros Hle.
  destruct (safeParse _) as [data|issues] eqn:Hparse; [|by eexists].
  apply invoice_validation_success in Hparse as (_ & Hnum & _ & Hgt & _).
  congruence.
Qed.

(** C6 (amended): a createInvoice submission with an invalid field -- in
    particular one whose amount coerces to a number not above zero -- is
    answered with the errors of all failing fields together: under each of
    customerId, amount and status the result holds exactly the messages
    that key's schema raised. An amount that is a number not above zero
    carries "Please enter an amount greater than $0."; an amount that
    coerces to NaN carries Zod's invalid-type message instead. Nothing is
    inserted, invalidated or navigated to: the world is unchanged and the
    action returns. *)
Theorem createInvoice_rejects_with_all_errors prevState formData w :
  (PrimFloat.leb (Number (formData_get "amount" formData)) 0 = true →
   ∃ issues,
     safeParse (CreateInvoice_parse (formData_get "customerId" formData)
                  (formData_get "amount" formData)
                  (formData_get "status" formData))
       = SafeParseError issues)
  ∧ ∀ issues,
      safeParse (CreateInvoice_parse (formData_get "customerId" formData)
                   (formData_get "amount" formData)
                   (formData_get "status" formData))
        = SafeParseError issues →
      createInvoice prevState formData w
        = (Normal (mkState (Some (fieldErrors issues))
                           (Some "Missing Fields. Failed to Create Invoice.")),
           w)
      ∧ issues ≠ []
      ∧ fieldErrors issues !! "customerId"
          = property_of_list
              (issue_message <$>
                 (FormSchema_customerId (formData_get "customerId" formData)).2)
      ∧ fieldErrors issues !! "amount"
          = property_of_list
              (issue_message <$>
                 (FormSchema_amount (formData_get "amount" formData)).2)
      ∧ fieldErrors issues !! "status"
          = property_of_list
              (issue_message <$>
                 (FormSchema_status (formData_get "status" formData)).2)
      ∧ fieldErrors issues !! "amount"
          = (if PrimFloat.is_nan (Number (formData_get "amount" formData))
             then Some ["Expected number, received nan"]
             else if PrimFloat.leb (Number (formData_get "amount" formData)) 0
                  then Some ["Please enter an amount greater than $0."]
                  else None).
Proof.
  split; [apply amount_not_positive_rejected|].
  intros issues Hparse.
  split; [unfold createInvoice; by rewrite Hparse|].
  split; [by eapply CreateInvoice_parse_error_nonempty|].
  apply safeParse_error in Hparse as [-> _].
  destruct (CreateInvoice_fieldErrors (formData_get "customerId" formData)
              (formData_get "amount" formData) (formData_get "status" formData))
    as (Hc & Ha & Hs).
  repeat split; [done..|].
  rewrite Ha, FormSchema_amount_issues. by repeat case_match.
Qed.

(** C2 (amended): an updateInvoice call whose fields fail the invoice
    schema does not return an error value: [parse] throws, and the
    [ZodError] that leaves the action holds the issues of all failing
    fields -- it is the list of the issues of customerId, of amount and of
    status, one after the other, each filed under its field, and a field
    that fails has an issue in it. No update statement runs, nothing is
    invalidated and there is no navigation: the world is unchanged. *)
Theorem updateInvoice_invalid_throws_ZodError id formData w issues :
  safeParse (UpdateInvoice_parse (formData_get "customerId" formData)
               (formData_get "amount" formData) (formData_get "status" formData))
    = SafeParseError issues →
  updateInvoice id formData w = (Throw (ZodError issues), w)
  ∧ issues ≠ []
  ∧ Forall (λ sub, ∃ key, issue_path sub = [key]
                          ∧ key ∈ ["customerId"; "amount"; "status"]) issues
  ∧ issues
    = (FormSchema_customerId (formData_get "customerId" formData)).2
      ++ (FormSchema_amount (formData_get "amount" formData)).2
      ++ (FormSchema_status (formData_get "status" formData)).2
  ∧ messages_at "customerId" issues
    = issue_message <$>
        (FormSchema_customerId (formData_get "customerId" formData)).2
  ∧ messages_at "amount" issues
    = issue_message <$> (FormSchema_amount (formData_get "amount" formData)).2
  ∧ messages_at "status" issues
    = issue_message <$> (FormSchema_status (formData_get "status" formData)).2
  ∧ ((∀ value,
        (FormSchema_customerId (formData_get "customerId" formData)).1
        ≠ OK value) →
     messages_at "customerId" issues ≠ [])
  ∧ ((∀ value,
        (FormSchema_amount (formData_get "amount" formData)).1 ≠ OK value) →
     messages_at "amount" issues ≠ [])
  ∧ ((∀ value,
        (FormSchema_status (formData_get "status" formData)).1 ≠ OK value) →
     messages_at "status" issues ≠ []).
Proof.
  intros Hparse. split; [|split; [|split]].
  - unfold updateInvoice, parse. by rewrite Hparse.
  - by eapply CreateInvoice_parse_error_nonempty.
  - apply safeParse_error in Hparse as [-> _].
    rewrite UpdateInvoice_parse_eq, CreateInvoice_parse_issues.
    rewrite !Forall_app. split_and!.
    + eapply Forall_impl; [apply string_parse_paths|].
      intros sub ->. eexists. split; [done|]. set_solver.
    + eapply Forall_impl; [apply coerce_number_gt_parse_paths|].
      intros sub ->. eexists. split; [done|]. set_solver.
    + eapply Forall_impl; [apply enum_parse_paths|].
      intros sub ->. eexists. split; [done|]. set_solver.
  - apply safeParse_error in Hparse as [-> _].
    rewrite UpdateInvoice_parse_eq, CreateInvoice_parse_issues.
    pose proof (string_parse_paths (Some "Please select a customer.") []
                  ["customerId"] (formData_get "customerId" formData)) as Hc.
    pose proof (coerce_number_gt_parse_paths 0
                  "Please enter an amount greater than $0." ["amount"]
                  (formData_get "amount" formData)) as Ha.
    pose proof (enum_parse_paths ["pending"; "paid"]
                  (Some "Please select an invoice status.") ["status"]
                  (formData_get "status" formData)) as Hs.
    fold (FormSchema_customerId (formData_get "customerId" formData)) in Hc.
    fold (FormSchema_amount (formData_get "amount" formData)) in Ha.
    fold (FormSchema_status (formData_get "status" formData)) in Hs.
    rewrite !messages_at_app.
    rewrite (messages_at_other "customerId" "amount" _ ltac:(done) Ha),
      (messages_at_other "customerId" "status" _ ltac:(done) Hs),
      (messages_at_other "amount" "customerId" _ ltac:(done) Hc),
      (messages_at_other "amount" "status" _ ltac:(done) Hs),
      (messages_at_other "status" "customerId" _ ltac:(done) Hc),
      (messages_at_other "status" "amount" _ ltac:(done) Ha).
    rewrite (messages_at_same _ _ Hc), (messages_at_same _ _ Ha),
      (messages_at_same _ _ Hs).
    rewrite !app_nil_r. cbn [app].
    split_and!; [done..| | |].
    + intros Hfail Hnil. apply fmap_nil_inv in Hnil.
      by apply (string_parse_not_OK _ _ _ _ Hfail).
    + intros Hfail Hnil. apply fmap_nil_inv in Hnil.
      by apply (coerce_number_gt_parse_not_OK _ _ _ _ Hfail).
    + intros Hfail Hnil. apply fmap_nil_inv in Hnil.
      by apply (enum_parse_not_OK _ _ _ _ Hfail).
Qed.

(** What the two writing actions do to the table on a valid submission
    when the store is up. *)
Lemma createInvoice_valid prevState formData w data :
  safeParse (CreateInvoice_parse (formData_get "customerId" formData)
               (formData_get "amount" formData) (formData_get "status" formData))
    = SafeParseSuccess data →
  db_fault w = None →
  createInvoice prevState formData w
  = (Throw (RedirectError "/dashboard/invoices"),
     set_revalidated (λ paths, paths ++ ["/dashboard/invoices"])
       (bump_id_counter
          (set_invoices
             (λ rows, rows ++ [mkInvoice (pretty (id_counter w)) (customerId data)
                                         (amount data * 100)%float (status data)
                                         (split_head "T" (now_iso w))])
             w))).
Proof.
  intros Hparse Hup. unfold createInvoice. rewrite Hparse.
  unfold mbind, action_bind, today, try_catch, sql_insert_invoice.
  by rewrite Hup.
Qed.

Lemma updateInvoice_valid id formData w data :
  safeParse (UpdateInvoice_parse (formData_get "customerId" formData)
               (formData_get "amount" formData) (formData_get "status" formData))
    = SafeParseSuccess data →
  db_fault w = None →
  updateInvoice id formData w
  = (Throw (RedirectError "/dashboard/invoices"),
     set_revalidated (λ paths, paths ++ ["/dashboard/invoices"])
       (set_invoices
          (map (update_row id (customerId data) (amount data * 100)%float
                           (status data)))
          w)).
Proof.
  intros Hparse Hup. unfold updateInvoice, parse. rewrite Hparse.
  unfold mbind, action_bind, mret, action_ret, try_catch, sql_update_invoice.
  by rewrite Hup.
Qed.

(** A store that is down makes both actions return their message and
    change nothing. *)
Lemma updateInvoice_store_down id formData w data error :
  safeParse (UpdateInvoice_parse (formData_get "customerId" formData)
               (formData_get "amount" formData) (formData_get "status" formData))
    = SafeParseSuccess data →
  db_fault w = Some error →
  updateInvoice id formData w
  = (Normal (message_only "Database Error: Failed to Update Invoice."), w).
Proof.
  intros Hparse Hdown. unfold updateInvoice, parse. rewrite Hparse.
  unfold mbind, action_bind, mret, action_ret, try_catch, sql_update_invoice.
  by rewrite Hdown.
Qed.

End invoice_actions.

Section invoice_writes.
Context `{Runtime}.

(** In the store model, which keeps the number a statement binds, the
    amount of the row createInvoice adds and of the rows updateInvoice
    updates is [amount * 100] for the validated amount: the binary64
    product, with no rounding step. Where the product is exact it is the
    whole number of cents (50 gives 5000); for 19.99 it is
    1998.9999999999998, and dividing that by 100 gives 19.99 back. *)
Theorem stored_amount_is_unrounded_product prevState id formData w data :
  safeParse (CreateInvoice_parse (formData_get "customerId" formData)
               (formData_get "amount" formData) (formData_get "status" formData))
    = SafeParseSuccess data →
  db_fault w = None →
  invoices (createInvoice prevState formData w).2
    = invoices w ++ [mkInvoice (pretty (id_counter w)) (customerId data)
                               (amount data * 100)%float (status data)
                               (split_head "T" (now_iso w))]
  ∧ invoices (updateInvoice id formData w).2
    = map (update_row id (customerId data) (amount data * 100)%float
                      (status data))
          (invoices w)
  ∧ amountInCents 50 = 5000%float
  ∧ amountInCents 19.99 = 1998.9999999999998%float
  ∧ (amountInCents 19.99 / 100)%float = 19.99%float.
Proof.
  intros Hparse Hup. split_and!; [| |reflexivity..].
  - by rewrite (createInvoice_valid _ _ _ _ Hparse Hup).
  - by rewrite (updateInvoice_valid _ _ _ _ Hparse Hup).
Qed.

(** The invoices table after [updateInvoice]: as it was, or every row put
    through the [UPDATE]. *)
Lemma updateInvoice_invoices id formData w :
  invoices (updateInvoice id formData w).2 = invoices w
  ∨ ∃ customer_id amount status,
      invoices (updateInvoice id formData w).2
      = map (update_row id customer_id amount status) (invoices w).
Proof.
  destruct (safeParse (UpdateInvoice_parse (formData_get "customerId" formData)
              (formData_get "amount" formData) (formData_get "status" formData)))
    as [data|issues] eqn:Hparse.
  - destruct (db_fault w) as [error|] eqn:Hfault.
    + left. by rewrite (updateInvoice_store_down _ _ _ _ _ Hparse Hfault).
    + right. rewrite (updateInvoice_valid _ _ _ _ Hparse Hfault). by eexists _, _, _.
  - left. unfold updateInvoice, parse. by rewrite Hparse.
Qed.

Lemma updateInvoice_users id formData w :
  users (updateInvoice id formData w).2 = users w.
Proof.
  destruct (safeParse (UpdateInvoice_parse (formData_get "customerId" formData)
              (formData_get "amount" formData) (formData_get "status" formData)))
    as [data|issues] eqn:Hparse.
  - destruct (db_fault w) as [error|] eqn:Hfault.
    + by rewrite (updateInvoice_store_down _ _ _ _ _ Hparse Hfault).
    + by rewrite (updateInvoice_valid _ _ _ _ Hparse Hfault).
  - unfold updateInvoice, parse. by rewrite Hparse.
Qed.

(** C9: whatever [updateInvoice id formData] does, and so whenever it
    succeeds, the invoices table keeps its rows in place; every row keeps
    its id and its date; a row whose id is not [id] is unchanged; the
    users table is unchanged. Only customer_id, amount and status of the
    rows with that id can differ. *)
Theorem updateInvoice_frame id formData w :
  length (invoices (updateInvoice id formData w).2) = length (invoices w)
  ∧ (∀ i before,
       invoices w !! i = Some before →
       ∃ after,
         invoices (updateInvoice id formData w).2 !! i = Some after
         ∧ same_id_and_date before after
         ∧ (invoice_id before ≠ id → after = before))
  ∧ users (updateInvoice id formData w).2 = users w.
Proof.
  split_and!; [| |apply updateInvoice_users].
  - destruct (updateInvoice_invoices id formData w) as [->|(c & a & s & ->)];
      [done|]. apply length_map.
  - intros i before Hi.
    destruct (updateInvoice_invoices id formData w) as [->|(c & a & s & ->)].
    + exists before. by repeat split.
    + exists (update_row id c a s before). split.
      * change (map ?f ?l) with (f <$> l). by rewrite list_lookup_fmap, Hi.
      * apply update_row_frame.
Qed.

(** C8: when the delete statement fails, [deleteInvoice] returns exactly
    the message "Database Error: Failed to Delete Invoice." and leaves the
    world as it was: every invoice row stays and nothing is invalidated.
    When the statement succeeds, the rows with that id are gone, the
    invoices path is invalidated and the action returns "Deleted
    Invoice.". In neither case does the action throw, so there is no
    navigation. *)
Theorem deleteInvoice_outcomes id w :
  (∀ error w',
     sql_delete_invoice id w = (Throw error, w') →
     deleteInvoice id w
     = (Normal (message_only "Database Error: Failed to Delete Invoice."), w)
     ∧ w' = w)
  ∧ (∀ n w',
       sql_delete_invoice id w = (Normal n, w') →
       deleteInvoice id w
       = (Normal (message_only "Deleted Invoice."),
          set_revalidated (λ paths, paths ++ ["/dashboard/invoices"]) w')
       ∧ invoices w' = filter (λ row, invoice_id row ≠ id) (invoices w))
  ∧ ∃ result, (deleteInvoice id w).1 = Normal result.
Proof.
  unfold deleteInvoice, try_catch, mbind, action_bind, sql_delete_invoice.
  destruct (db_fault w) as [fault|]; cbn; split_and!; naive_solver.
Qed.

End invoice_writes.

(** ** Registration and sign-in *)

(** The spec's Session Establisher establishes a session only when it
    succeeds: a sign-in that fails with an [AuthError] leaves the world as
    it was. *)
Lemma signIn_spec_failure hash provider credentials w type w' :
  signIn_spec hash provider credentials w = (Throw (AuthError type), w') →
  w' = w.
Proof.
  unfold signIn_spec. intros Hsign.
  repeat case_match; simplify_eq; done.
Qed.

(** The unique constraint: an insert of a present e-mail is refused. *)
Lemma sql_insert_user_duplicate row w :
  db_fault w = None →
  user_email row ∈ map user_email (users w) →
  sql_insert_user row w = (Throw (DatabaseError unique_violation), w).
Proof.
  intros Hup Hin. unfold sql_insert_user. rewrite Hup.
  by rewrite bool_decide_eq_true_2.
Qed.

(** E-mails stay unique under inserts, refused or not. *)
Lemma sql_insert_user_NoDup row w :
  NoDup (map user_email (users w)) →
  NoDup (map user_email (users (sql_insert_user row w).2)).
Proof.
  intros Hnodup. unfold sql_insert_user.
  destruct (db_fault w); [done|]. case_bool_decide as Hin; [done|].
  cbn. rewrite map_app. apply NoDup_app. cbn.
  split_and!; [done| |apply NoDup_singleton].
  intros email Hemail ->%list_elem_of_singleton. done.
Qed.

Section registration.
Context `{Runtime}.

Lemma string_parse_min_OK path value data :
  value ≤ String.length data →
  string_parse None [check_min value] path (Some (StringEntry data))
  = (OK data, []).
Proof.
  intros Hlen. unfold string_parse. cbn [flat_map string_check_issue].
  by destruct (Nat.ltb_spec (String.length data) value); [lia|].
Qed.

(** With four strings submitted, two long enough passwords that differ
    make the refinement run and fail: the mismatch is filed under
    [confirmPassword], after whatever e-mail and name raised. *)
Lemma FullRegisterSchema_mismatch email name password confirm :
  6 ≤ String.length password →
  6 ≤ String.length confirm →
  password ≠ confirm →
  ∃ issues,
    safeParse (FullRegisterSchema_parse
                 (Some (StringEntry email)) (Some (StringEntry name))
                 (Some (StringEntry password)) (Some (StringEntry confirm)))
    = SafeParseError
        (issues ++ [mkIssue ["confirmPassword"] "Password does not match"])
    ∧ messages_at "confirmPassword" issues = [].
Proof.
  intros Hp Hc Hne.
  unfold FullRegisterSchema_parse, RegisterSchema_parse.
  rewrite (string_parse_min_OK ["password"] 6 password Hp),
    (string_parse_min_OK ["confirmPassword"] 6 confirm Hc).
  pose proof (string_parse_paths None [check_email] ["email"]
                (Some (StringEntry email))) as He.
  pose proof (string_parse_paths None [check_min 1] ["name"]
                (Some (StringEntry name))) as Hn.
  exists ((string_parse None [check_email] ["email"] (Some (StringEntry email))).2
          ++ (string_parse None [check_min 1] ["name"] (Some (StringEntry name))).2).
  split.
  - unfold string_parse, object_key, object_start, refine. cbn.
    rewrite !app_nil_r.
    destruct (emailRegex_test email), (String.length name <=? 0); cbn;
      by rewrite bool_decide_eq_false_2.
  - rewrite messages_at_app.
    by rewrite (messages_at_other "confirmPassword" "email" _ ltac:(done) He),
      (messages_at_other "confirmPassword" "name" _ ltac:(done) Hn).
Qed.

(** A field that is not submitted as a string aborts its key: one
    invalid-type issue, no value. *)
Lemma string_parse_not_string invalid_type_error checks path input :
  (∀ data, input ≠ Some (StringEntry data)) →
  string_parse invalid_type_error checks path input
  = (INVALID,
     [mkIssue path (invalid_type_message invalid_type_error "string" input)]).
Proof.
  intros Hnot. destruct input as [[data|]|]; [|done..]. by destruct (Hnot data).
Qed.

(** Without e-mail or name as a string the object schema aborts and the
    refinement does not run: the error holds the issues of the four keys
    and nothing else. *)
Lemma FullRegisterSchema_aborted email name password confirm :
  (∀ data, email ≠ Some (StringEntry data))
  ∨ (∀ data, name ≠ Some (StringEntry data)) →
  safeParse (FullRegisterSchema_parse email name password confirm)
  = SafeParseError (RegisterSchema_parse email name password confirm).2.
Proof.
  intros Hnot.
  assert ((RegisterSchema_parse email name password confirm).1 = INVALID)
    as Habort.
  { unfold RegisterSchema_parse, object_key, object_start. cbn [fst snd].
    destruct Hnot as [Hnot|Hnot].
    - rewrite (string_parse_not_string None [check_email] ["email"] _ Hnot).
      cbn [fst merge_status].
      by destruct (string_parse None [check_min 1] ["name"] name).1,
        (string_parse None [check_min 6] ["password"] password).1,
        (string_parse None [check_min 6] ["confirmPassword"] confirm).1.
    - rewrite (string_parse_not_string None [check_min 1] ["name"] _ Hnot).
      cbn [fst].
      by destruct (string_parse None [check_email] ["email"] email).1,
        (string_parse None [check_min 6] ["password"] password).1,
        (string_parse None [check_min 6] ["confirmPassword"] confirm).1. }
  unfold FullRegisterSchema_parse.
  destruct (RegisterSchema_parse email name password confirm) as [st issues].
  cbn in Habort. by subst.
Qed.

(** The entries of the errors object when the object schema aborted on
    e-mail or name and both passwords are long enough: nothing under
    confirmPassword, and the invalid-type message under the missing key. *)
Lemma RegisterSchema_aborted_entries email name password confirm :
  6 ≤ String.length password →
  6 ≤ String.length confirm →
  let errs :=
    fieldErrors (RegisterSchema_parse email name
                   (Some (StringEntry password)) (Some (StringEntry confirm))).2 in
  errs !! "confirmPassword" = None
  ∧ ((∀ data, email ≠ Some (StringEntry data)) →
     errs !! "email" = Some [invalid_type_message None "string" email])
  ∧ ((∀ data, name ≠ Some (StringEntry data)) →
     errs !! "name" = Some [invalid_type_message None "string" name]).
Proof.
  intros Hp Hc. cbn zeta.
  rewrite !fieldErrors_lookup, RegisterSchema_parse_issues.
  rewrite (string_parse_min_OK ["password"] 6 password Hp),
    (string_parse_min_OK ["confirmPassword"] 6 confirm Hc).
  cbn [snd]. rewrite !app_nil_r, !messages_at_app.
  pose proof (string_parse_paths None [check_email] ["email"] email) as He.
  pose proof (string_parse_paths None [check_min 1] ["name"] name) as Hn.
  rewrite (messages_at_other "confirmPassword" "email" _ ltac:(done) He),
    (messages_at_other "confirmPassword" "name" _ ltac:(done) Hn),
    (messages_at_other "email" "name" _ ltac:(done) Hn),
    (messages_at_other "name" "email" _ ltac:(done) He),
    (messages_at_same _ _ He), (messages_at_same _ _ Hn).
  rewrite app_nil_r. cbn [app].
  split_and!; [done| |].
  - intros Hnot. by rewrite (string_parse_not_string _ _ _ _ Hnot).
  - intros Hnot. by rewrite (string_parse_not_string _ _ _ _ Hnot).
Qed.

(** C5 (amended): when password and confirmPassword are submitted as
    strings of at least 6 characters each that differ, [register] returns
    an errors object with the message "Missing Fields. Failed to Create
    User, please try again." and the world is unchanged, so no User row is
    inserted. When email and name are submitted as strings too, the
    confirmPassword entry of the errors is the list holding "Password does
    not match": the message is filed under confirmPassword, not under the
    form. When email or name is not submitted as a string, the object
    schema aborts before the comparison: the errors have no
    confirmPassword entry, and the missing key carries Zod's invalid-type
    message. *)
Theorem register_password_mismatch prevState formData w password confirm :
  formData_get "password" formData = Some (StringEntry password) →
  formData_get "confirm-password" formData = Some (StringEntry confirm) →
  6 ≤ String.length password →
  6 ≤ String.length confirm →
  password ≠ confirm →
  ∃ errs,
    register prevState formData w
    = (Normal (Some (mkState
         (Some errs)
         (Some "Missing Fields. Failed to Create User, please try again."))),
       w)
    ∧ (∀ email name,
         formData_get "email" formData = Some (StringEntry email) →
         formData_get "name" formData = Some (StringEntry name) →
         errs !! "confirmPassword" = Some ["Password does not match"])
    ∧ ((∀ email, formData_get "email" formData ≠ Some (StringEntry email)) →
       errs !! "confirmPassword" = None
       ∧ errs !! "email"
         = Some [invalid_type_message None "string"
                   (formData_get "email" formData)])
    ∧ ((∀ name, formData_get "name" formData ≠ Some (StringEntry name)) →
       errs !! "confirmPassword" = None
       ∧ errs !! "name"
         = Some [invalid_type_message None "string"
                   (formData_get "name" formData)]).
Proof.
  intros Hp Hc Hlp Hlc Hne.
  assert ((∃ email name,
             formData_get "email" formData = Some (StringEntry email)
             ∧ formData_get "name" formData = Some (StringEntry name))
          ∨ ((∀ data, formData_get "email" formData ≠ Some (StringEntry data))
             ∨ (∀ data, formData_get "name" formData ≠ Some (StringEntry data))))
    as [(email & name & He & Hn)|Hnot].
  { destruct (formData_get "email" formData) as [[email|]|];
      destruct (formData_get "name" formData) as [[name|]|]; naive_solver. }
  - destruct (FullRegisterSchema_mismatch email name password confirm
                Hlp Hlc Hne) as (issues & Hparse & Hnone).
    eexists. split_and!.
    + unfold register. rewrite He, Hn, Hp, Hc, Hparse. reflexivity.
    + intros _ _ _ _.
      rewrite fieldErrors_lookup, messages_at_app, Hnone. reflexivity.
    + intros Hnot. by destruct (Hnot email).
    + intros Hnot. by destruct (Hnot name).
  - pose proof (FullRegisterSchema_aborted _ _ (Some (StringEntry password))
                  (Some (StringEntry confirm)) Hnot) as Hparse.
    destruct (RegisterSchema_aborted_entries (formData_get "email" formData)
                (formData_get "name" formData) password confirm Hlp Hlc)
      as (Hconfirm & Hemail & Hname).
    eexists. split_and!.
    + unfold register. rewrite Hp, Hc, Hparse. reflexivity.
    + intros email name He Hn. destruct Hnot as [Hnot|Hnot].
      * by destruct (Hnot email).
      * by destruct (Hnot name).
    + intros Hnot'. split; [exact Hconfirm|by apply Hemail].
    + intros Hnot'. split; [exact Hconfirm|by apply Hname].
Qed.

(** C3: when the fields are valid and the insert of the user fails with
    the unique-constraint violation, [register] returns exactly the
    message "Email already exists. Please sign in.", which is not the
    generic failure message, and the world -- the users table with it --
    is as before: no duplicate row. *)
Theorem register_duplicate_email prevState formData w data w' :
  safeParse (FullRegisterSchema_parse
               (formData_get "email" formData) (formData_get "name" formData)
               (formData_get "password" formData)
               (formData_get "confirm-password" formData))
    = SafeParseSuccess data →
  createUser (reg_email data) (bcrypt_hash (reg_password data) 10)
             (reg_name data) w
    = (Throw (DatabaseError unique_violation), w') →
  register prevState formData w
    = (Normal (Some (message_only "Email already exists. Please sign in.")), w)
  ∧ users w' = users w
  ∧ message_only "Email already exists. Please sign in."
    ≠ message_only "Something went wrong, please try again.".
Proof.
  intros Hparse Hinsert.
  pose proof (sql_insert_user_throw _ _ _ _ Hinsert) as ->.
  split_and!; [|done..].
  unfold register. rewrite Hparse.
  unfold try_catch, mbind, action_bind. by rewrite Hinsert.
Qed.

(** C4: when the fields are valid, the insert succeeds and the sign-in
    raises the navigation signal, [register] does not return a failure
    message: it throws the navigation signal for /dashboard. *)
Theorem register_propagates_redirect prevState formData w data w1 url w2 :
  safeParse (FullRegisterSchema_parse
               (formData_get "email" formData) (formData_get "name" formData)
               (formData_get "password" formData)
               (formData_get "confirm-password" formData))
    = SafeParseSuccess data →
  createUser (reg_email data) (bcrypt_hash (reg_password data) 10)
             (reg_name data) w
    = (Normal 1, w1) →
  signIn "credentials"
         [("email", StringEntry (reg_email data));
          ("password", StringEntry (reg_password data))] w1
    = (Throw (RedirectError url), w2) →
  register prevState formData w = (Throw (RedirectError "/dashboard"), w2).
Proof.
  intros Hparse Hinsert Hsign.
  unfold register. rewrite Hparse.
  unfold try_catch, mbind, action_bind. rewrite Hinsert. cbn.
  by rewrite Hsign.
Qed.

(** C7: when the sign-in fails with an [AuthError], [authenticate]
    returns "Invalid credentials." for the type CredentialsSignin and
    "Something went wrong." for every other type; the two messages differ,
    neither outcome is the success value [undefined], and the world is the
    one the failed sign-in left -- with the spec's Session Establisher, the
    session of before. *)
Theorem authenticate_failure_messages prevState formData w type w' :
  signIn "credentials" formData w = (Throw (AuthError type), w') →
  authenticate prevState formData w
    = (Normal (Some (if String.eqb type "CredentialsSignin"
                     then "Invalid credentials."
                     else "Something went wrong.")), w')
  ∧ "Invalid credentials." ≠ "Something went wrong."
  ∧ (authenticate prevState formData w).1 ≠ Normal None
  ∧ (∀ hash, signIn = signIn_spec hash → session w' = session w).
Proof.
  intros Hsign.
  assert (authenticate prevState formData w
          = (Normal (Some (if String.eqb type "CredentialsSignin"
                           then "Invalid credentials."
                           else "Something went wrong.")), w')) as Hauth.
  { unfold authenticate, try_catch, mbind, action_bind. rewrite Hsign.
    by destruct (String.eqb type "CredentialsSignin"). }
  split_and!; [done|done| |].
  - by rewrite Hauth.
  - intros hash Hspec. rewrite Hspec in Hsign.
    by rewrite (signIn_spec_failure _ _ _ _ _ _ Hsign).
Qed.

End registration.

(** ** The [authorized] callback *)

Lemma prefix_app (p s : string) :
  String.prefix p s = true ↔ ∃ rest, s = p +:+ rest.
Proof.
  revert s. induction p as [|c p IH]; intros s.
  - split; [by eexists|]. by destruct s.
  - destruct s as [|d s]; cbn.
    + split; [done|]. by intros [rest ?].
    + destruct (Ascii.ascii_dec c d) as [->|Hne].
      * rewrite IH. split; intros [rest Hrest]; exists rest.
        -- by rewrite Hrest.
        -- change (String d p +:+ rest) with (String d (p +:+ rest)) in Hrest.
           congruence.
      * split; [done|]. intros [rest [= ? ?]]. done.
Qed.

(** C10: on a path that starts with /dashboard the callback grants access
    exactly when the session holds a user -- [false] without one, [true]
    with one -- and a logged-in request to any other path is answered with
    a redirect to /dashboard on the same origin. *)
Theorem authorized_dashboard auth nextUrl :
  (isLoggedIn auth = true ↔ ∃ s user, auth = Some s ∧ session_user s = Some user)
  ∧ (isOnDashboard nextUrl = true ↔
     ∃ rest, pathname nextUrl = "/dashboard" +:+ rest)
  ∧ (isOnDashboard nextUrl = true →
     authorized auth nextUrl = Granted (isLoggedIn auth)
     ∧ (authorized auth nextUrl = Granted true ↔ isLoggedIn auth = true))
  ∧ (isOnDashboard nextUrl = false →
     isLoggedIn auth = true →
     authorized auth nextUrl
     = ResponseRedirect (mkURL (origin nextUrl) "/dashboard" "")).
Proof.
  split_and!.
  - unfold isLoggedIn. destruct auth as [[[user|]]|]; naive_solver.
  - apply prefix_app.
  - unfold authorized. intros ->. destruct (isLoggedIn auth); naive_solver.
  - unfold authorized. by intros -> ->.
Qed.

(** ** Further properties of the actions *)

Section further.
Context `{Runtime}.

(** X1: a valid createInvoice submission against a store that is up adds
    exactly one invoice row -- the submitted customer and status, the
    amount times 100, the calendar day of the request as date -- records
    the invoices path as stale, and leaves by the navigation signal for
    the invoices list. *)
Theorem createInvoice_end_to_end prevState formData w data :
  safeParse (CreateInvoice_parse (formData_get "customerId" formData)
               (formData_get "amount" formData) (formData_get "status" formData))
    = SafeParseSuccess data →
  db_fault w = None →
  ∃ w',
    createInvoice prevState formData w
    = (Throw (RedirectError "/dashboard/invoices"), w')
    ∧ invoices w'
      = invoices w ++ [mkInvoice (pretty (id_counter w)) (customerId data)
                                 (amountInCents (amount data)) (status data)
                                 (split_head "T" (now_iso w))]
    ∧ revalidated w' = revalidated w ++ ["/dashboard/invoices"]
    ∧ users w' = users w.
Proof.
  intros Hparse Hup. eexists. split; [by apply createInvoice_valid|done].
Qed.

(** X2: a valid createInvoice submission against a store that fails
    returns the message "Database Error: Failed to Create Invoice." and
    changes nothing: no row, no invalidation, no navigation. *)
Theorem createInvoice_store_down prevState formData w data error :
  safeParse (CreateInvoice_parse (formData_get "customerId" formData)
               (formData_get "amount" formData) (formData_get "status" formData))
    = SafeParseSuccess data →
  db_fault w = Some error →
  createInvoice prevState formData w
  = (Normal (message_only "Database Error: Failed to Create Invoice."), w).
Proof.
  intros Hparse Hdown. unfold createInvoice. rewrite Hparse.
  unfold mbind, action_bind, today, try_catch, sql_insert_invoice.
  by rewrite Hdown.
Qed.

(** X3: a registration that fails validation returns the field errors of
    its issues with the message "Missing Fields. Failed to Create User,
    please try again." and changes nothing: no insert and no sign-in. *)
Theorem register_invalid_no_effect prevState formData w issues :
  safeParse (FullRegisterSchema_parse
               (formData_get "email" formData) (formData_get "name" formData)
               (formData_get "password" formData)
               (formData_get "confirm-password" formData))
    = SafeParseError issues →
  register prevState formData w
  = (Normal (Some (mkState
       (Some (fieldErrors issues))
       (Some "Missing Fields. Failed to Create User, please try again."))),
     w).
Proof. intros Hparse. unfold register. by rewrite Hparse. Qed.

(** X4: [authenticate] rethrows whatever the sign-in throws that is not an
    [AuthError], the navigation signal of a successful sign-in among
    them. *)
Theorem authenticate_rethrows prevState formData w error w' :
  signIn "credentials" formData w = (Throw error, w') →
  (∀ type, error ≠ AuthError type) →
  authenticate prevState formData w = (Throw error, w').
Proof.
  intros Hsign Hother.
  unfold authenticate, try_catch, mbind, action_bind. rewrite Hsign.
  destruct error; try done. by destruct (Hother type).
Qed.

(** X5: when the insert of the user has succeeded and the sign-in then
    fails with an error that is neither the unique-constraint violation
    nor the navigation signal, [register] returns "Something went wrong,
    please try again." and the world is the one the sign-in left: the
    inserted row stays. *)
Theorem register_signIn_failure prevState formData w data w1 error w2 :
  safeParse (FullRegisterSchema_parse
               (formData_get "email" formData) (formData_get "name" formData)
               (formData_get "password" formData)
               (formData_get "confirm-password" formData))
    = SafeParseSuccess data →
  createUser (reg_email data) (bcrypt_hash (reg_password data) 10)
             (reg_name data) w
    = (Normal 1, w1) →
  signIn "credentials"
         [("email", StringEntry (reg_email data));
          ("password", StringEntry (reg_password data))] w1
    = (Throw error, w2) →
  error_code error ≠ Some "23505" →
  isRedirectError error = false →
  register prevState formData w
  = (Normal (Some (message_only "Something went wrong, please try again.")), w2).
Proof.
  intros Hparse Hinsert Hsign Hcode Hredirect.
  unfold register. rewrite Hparse.
  unfold try_catch, mbind, action_bind. rewrite Hinsert. cbn.
  rewrite Hsign, bool_decide_eq_false_2, Hredirect by done. done.
Qed.

End further.

(** * Closed instances

    The statements above at concrete submissions, with the reference
    runtime. *)

(** C1: the code at the claim's own example. The submitted amount 19.99
    is validated as the binary64 number nearest to 19.99, and the number
    [createInvoice] and [updateInvoice] then bind as the amount of their
    statement, [amountInCents] of it, is 1998.9999999999998: the binary64
    product, which no step rounds to the 1999 whole cents the claim
    requires. *)
Theorem amountInCents_19_99_is_not_whole_cents :
  StringToNumber (Runtime := reference_runtime) "19.99" = 19.99%float
  ∧ amountInCents 19.99 = 1998.9999999999998%float
  ∧ amountInCents 19.99 ≠ 1999%float.
Proof. split_and!; [reflexivity..|]. vm_compute. discriminate. Qed.

(** The row the store model keeps for the amount 19.99 holds
    1998.9999999999998, not 1999. *)
Lemma amount_19_99_is_not_1999 :
  invoice_amount <$>
    invoices (createInvoice (H := reference_runtime) (message_only "")
                (invoice_form "c9" "19.99" "pending") empty_world).2
  = [1998.9999999999998%float]
  ∧ invoice_amount <$>
      invoices (createInvoice (H := reference_runtime) (message_only "")
                  (invoice_form "c9" "19.99" "pending") empty_world).2
    ≠ [1999%float].
Proof. split; [reflexivity|]. vm_compute. discriminate. Qed.

(** The amounts both actions store for 19.99, next to the rows already
    there. *)
Lemma stored_amount_witness :
  invoices (createInvoice (H := reference_runtime) (message_only "")
              (invoice_form "c9" "19.99" "pending") two_invoice_world).2
  = [mkInvoice "a1" "c1" 1500 "pending" "2024-01-02";
     mkInvoice "b2" "c2" 990 "paid" "2024-02-03";
     mkInvoice "0" "c9" 1998.9999999999998 "pending" "2024-05-17"]
  ∧ invoices (updateInvoice (H := reference_runtime) "a1"
                (invoice_form "c9" "19.99" "pending") two_invoice_world).2
    = [mkInvoice "a1" "c9" 1998.9999999999998 "pending" "2024-01-02";
       mkInvoice "b2" "c2" 990 "paid" "2024-02-03"].
Proof.
  destruct (stored_amount_is_unrounded_product (H := reference_runtime)
              (message_only "") "a1" (invoice_form "c9" "19.99" "pending")
              two_invoice_world (mkInvoiceData "c9" 19.99 "pending")
              eq_refl eq_refl) as (Hcreate & Hupdate & _).
  split; [exact Hcreate | exact Hupdate].
Defined.

(** C2, as stated, fails: with a status outside the enumeration
    [updateInvoice] returns nothing, it throws the [ZodError]. *)
Lemma updateInvoice_bad_status_throws :
  (updateInvoice (H := reference_runtime) "a1"
     (invoice_form "c9" "50" "archived") two_invoice_world).1
  = Throw (ZodError
      [mkIssue ["status"]
         "Invalid enum value. Expected 'pending' | 'paid', received 'archived'"])
  ∧ ¬ ∃ result,
        (updateInvoice (H := reference_runtime) "a1"
           (invoice_form "c9" "50" "archived") two_invoice_world).1
        = Normal result.
Proof. split; [reflexivity|]. intros [result Hresult]. discriminate Hresult. Qed.

(** A negative amount and an unknown status: both issues are thrown. *)
Lemma updateInvoice_invalid_witness :
  updateInvoice (H := reference_runtime) "a1"
    (invoice_form "c9" "-3" "archived") two_invoice_world
  = (Throw (ZodError
       [mkIssue ["amount"] "Please enter an amount greater than $0.";
        mkIssue ["status"]
          "Invalid enum value. Expected 'pending' | 'paid', received 'archived'"]),
     two_invoice_world).
Proof.
  exact (proj1 (updateInvoice_invalid_throws_ZodError (H := reference_runtime)
                  "a1" (invoice_form "c9" "-3" "archived") two_invoice_world
                  _ eq_refl)).
Defined.

(** C6, as stated, fails for a non-numeric amount: the amount error is
    Zod's invalid-type message, not the amount message of the schema. *)
Lemma createInvoice_nan_amount_message :
  ∃ errs,
    (createInvoice (H := reference_runtime) (message_only "")
       (invoice_form "c9" "abc" "pending") empty_world).1
    = Normal (mkState (Some errs)
                      (Some "Missing Fields. Failed to Create Invoice."))
    ∧ errs !! "amount" = Some ["Expected number, received nan"]
    ∧ "Please enter an amount greater than $0."
      ∉ ["Expected number, received nan"].
Proof.
  eexists. split; [reflexivity|]. split; [by vm_compute|].
  by intros [=]%list_elem_of_singleton.
Qed.

(** No customer, a negative amount and an unknown status: three errors
    together, and the world untouched. *)
Lemma createInvoice_rejects_witness :
  ∃ errs,
    createInvoice (H := reference_runtime) (message_only "")
      [("amount", StringEntry "-3"); ("status", StringEntry "archived")]
      two_invoice_world
    = (Normal (mkState (Some errs)
                       (Some "Missing Fields. Failed to Create Invoice.")),
       two_invoice_world)
    ∧ errs !! "customerId" = Some ["Please select a customer."]
    ∧ errs !! "amount" = Some ["Please enter an amount greater than $0."]
    ∧ errs !! "status"
      = Some ["Invalid enum value. Expected 'pending' | 'paid', received 'archived'"].
Proof.
  destruct (createInvoice_rejects_with_all_errors (H := reference_runtime)
              (message_only "")
              [("amount", StringEntry "-3"); ("status", StringEntry "archived")]
              two_invoice_world) as [Hrejected Herrors].
  destruct (Hrejected eq_refl) as [issues Hparse].
  destruct (Herrors issues Hparse) as (Hrun & _ & Hc & Ha & Hs & _).
  exists (fieldErrors issues). split_and!; [exact Hrun | exact Hc | exact Ha | exact Hs].
Defined.

(** C5, as stated, fails when a field is missing from the form: without an
    e-mail entry the object schema aborts, the passwords are not
    compared, and the errors object has no confirmPassword entry. *)
Lemma register_missing_email_no_mismatch_error :
  ∃ errs,
    register (H := reference_runtime) None
      [("name", StringEntry "Ada"); ("password", StringEntry "secret1");
       ("confirm-password", StringEntry "secret2")]
      empty_world
    = (Normal (Some (mkState
         (Some errs)
         (Some "Missing Fields. Failed to Create User, please try again."))),
       empty_world)
    ∧ errs !! "email" = Some ["Expected string, received null"]
    ∧ errs !! "confirmPassword" = None.
Proof. eexists. split; [reflexivity|]. split; by vm_compute. Qed.

(** Four strings, the passwords of seven characters each and different;
    and the same submission without its name. *)
Lemma register_password_mismatch_witness :
  (∃ errs,
     register (H := reference_runtime) None
       (register_form "ada@example.com" "Ada" "secret1" "secret2") one_user_world
     = (Normal (Some (mkState
          (Some errs)
          (Some "Missing Fields. Failed to Create User, please try again."))),
        one_user_world)
     ∧ errs !! "confirmPassword" = Some ["Password does not match"])
  ∧ ∃ errs,
      register (H := reference_runtime) None
        [("email", StringEntry "ada@example.com");
         ("password", StringEntry "secret1");
         ("confirm-password", StringEntry "secret2")]
        one_user_world
      = (Normal (Some (mkState
           (Some errs)
           (Some "Missing Fields. Failed to Create User, please try again."))),
         one_user_world)
      ∧ errs !! "confirmPassword" = None
      ∧ errs !! "name" = Some ["Expected string, received null"].
Proof.
  split.
  - destruct (register_password_mismatch (H := reference_runtime) None
                (register_form "ada@example.com" "Ada" "secret1" "secret2")
                one_user_world "secret1" "secret2" eq_refl eq_refl)
      as (errs & Hrun & Hboth & _); [cbn; lia..|discriminate|].
    exists errs. split; [exact Hrun|].
    exact (Hboth "ada@example.com" "Ada" eq_refl eq_refl).
  - destruct (register_password_mismatch (H := reference_runtime) None
                [("email", StringEntry "ada@example.com");
                 ("password", StringEntry "secret1");
                 ("confirm-password", StringEntry "secret2")]
                one_user_world "secret1" "secret2" eq_refl eq_refl)
      as (errs & Hrun & _ & _ & Hname); [cbn; lia..|discriminate|].
    exists errs. split; [exact Hrun|].
    apply Hname. intros name. discriminate.
Defined.

(** Registering the e-mail of the stored user again. *)
Lemma register_duplicate_email_witness :
  register (H := reference_runtime) None
    (register_form "ada@example.com" "Ada B" "secret1" "secret1") one_user_world
  = (Normal (Some (message_only "Email already exists. Please sign in.")),
     one_user_world)
  ∧ users one_user_world
    = [mkUser "ada@example.com" (tagged_hash "lovelace" 10) "Ada"].
Proof.
  destruct (register_duplicate_email (H := reference_runtime) None
              (register_form "ada@example.com" "Ada B" "secret1" "secret1")
              one_user_world
              (mkRegisterData "ada@example.com" "Ada B" "secret1" "secret1")
              one_user_world eq_refl eq_refl) as (Hrun & Husers & _).
  split; [exact Hrun | exact Husers].
Defined.

(** A fresh e-mail: the insert succeeds, the sign-in finds the new user
    and raises the navigation signal. *)
Lemma register_propagates_redirect_witness :
  (register (H := reference_runtime) None
     (register_form "grace@example.com" "Grace" "hopper1" "hopper1")
     one_user_world).1
  = Throw (RedirectError "/dashboard").
Proof.
  exact (f_equal fst
           (register_propagates_redirect (H := reference_runtime) None
              (register_form "grace@example.com" "Grace" "hopper1" "hopper1")
              one_user_world
              (mkRegisterData "grace@example.com" "Grace" "hopper1" "hopper1")
              _ _ _ eq_refl eq_refl eq_refl)).
Defined.

(** A wrong password, and a provider that is down. *)
Lemma authenticate_failure_witness :
  authenticate (H := reference_runtime) None
    [("email", StringEntry "ada@example.com"); ("password", StringEntry "byron")]
    one_user_world
  = (Normal (Some "Invalid credentials."), one_user_world)
  ∧ authenticate (H := reference_runtime) None
      [("email", StringEntry "ada@example.com");
       ("password", StringEntry "lovelace")]
      provider_down_world
    = (Normal (Some "Something went wrong."), provider_down_world)
  ∧ session one_user_world = None.
Proof.
  split_and!; [| |reflexivity].
  - exact (proj1 (authenticate_failure_messages (H := reference_runtime) None
                    [("email", StringEntry "ada@example.com");
                     ("password", StringEntry "byron")]
                    one_user_world "CredentialsSignin" one_user_world eq_refl)).
  - exact (proj1 (authenticate_failure_messages (H := reference_runtime) None
                    [("email", StringEntry "ada@example.com");
                     ("password", StringEntry "lovelace")]
                    provider_down_world "CallbackRouteError" provider_down_world
                    eq_refl)).
Defined.

(** A delete against a store that is down, and one that succeeds. *)
Lemma deleteInvoice_witness :
  deleteInvoice "nonexistent-id" store_down_world
  = (Normal (message_only "Database Error: Failed to Delete Invoice."),
     store_down_world)
  ∧ deleteInvoice "a1" two_invoice_world
    = (Normal (message_only "Deleted Invoice."),
       set_revalidated (λ _, ["/dashboard/invoices"])
         (set_invoices (λ _, [mkInvoice "b2" "c2" 990 "paid" "2024-02-03"])
            two_invoice_world)).
Proof.
  split.
  - exact (proj1 (proj1 (deleteInvoice_outcomes "nonexistent-id" store_down_world)
                    (DatabaseError "08006") store_down_world eq_refl)).
  - exact (proj1 (proj1 (proj2 (deleteInvoice_outcomes "a1" two_invoice_world))
                    1 _ eq_refl)).
Defined.

(** Updating invoice a1 leaves invoice b2 as it was. *)
Lemma updateInvoice_frame_witness :
  ∃ after,
    invoices (updateInvoice (H := reference_runtime) "a1"
                (invoice_form "c9" "19.99" "paid") two_invoice_world).2 !! 1
    = Some after
    ∧ after = mkInvoice "b2" "c2" 990 "paid" "2024-02-03".
Proof.
  destruct (updateInvoice_frame (H := reference_runtime) "a1"
              (invoice_form "c9" "19.99" "paid") two_invoice_world)
    as (_ & Hrows & _).
  destruct (Hrows 1 (mkInvoice "b2" "c2" 990 "paid" "2024-02-03") eq_refl)
    as (after & Hafter & _ & Hsame).
  exists after. split; [exact Hafter|]. apply Hsame. discriminate.
Defined.

(** No session on a dashboard path, and a session on the login page. *)
Lemma authorized_dashboard_witness :
  authorized None (mkURL "https://acme.test" "/dashboard/invoices" "?page=2")
  = Granted false
  ∧ authorized (Some (mkSession (Some "ada@example.com")))
      (mkURL "https://acme.test" "/login" "")
    = ResponseRedirect (mkURL "https://acme.test" "/dashboard" "").
Proof.
  split.
  - exact (proj1 (proj1 (proj2 (proj2
             (authorized_dashboard None
                (mkURL "https://acme.test" "/dashboard/invoices" "?page=2"))))
             eq_refl)).
  - exact (proj2 (proj2 (proj2
             (authorized_dashboard (Some (mkSession (Some "ada@example.com")))
                (mkURL "https://acme.test" "/login" ""))))
             eq_refl eq_refl).
Defined.

(** The submission customer abc, amount 50, status pending. *)
Lemma createInvoice_end_to_end_witness :
  ∃ w',
    createInvoice (H := reference_runtime) (message_only "")
      (invoice_form "abc" "50" "pending") empty_world
    = (Throw (RedirectError "/dashboard/invoices"), w')
    ∧ invoices w' = [mkInvoice "0" "abc" 5000 "pending" "2024-05-17"]
    ∧ revalidated w' = ["/dashboard/invoices"]
    ∧ users w' = [].
Proof.
  exact (createInvoice_end_to_end (H := reference_runtime) (message_only "")
           (invoice_form "abc" "50" "pending") empty_world
           (mkInvoiceData "abc" 50 "pending") eq_refl eq_refl).
Defined.

(** The same submission against a store that is down. *)
Lemma createInvoice_store_down_witness :
  createInvoice (H := reference_runtime) (message_only "")
    (invoice_form "abc" "50" "pending") store_down_world
  = (Normal (message_only "Database Error: Failed to Create Invoice."),
     store_down_world).
Proof.
  exact (createInvoice_store_down (H := reference_runtime) (message_only "")
           (invoice_form "abc" "50" "pending") store_down_world
           (mkInvoiceData "abc" 50 "pending") (DatabaseError "08006")
           eq_refl eq_refl).
Defined.

(** A registration with every field invalid. *)
Lemma register_invalid_no_effect_witness :
  ∃ errs,
    register (H := reference_runtime) None
      (register_form "not-an-address" "" "short" "short") one_user_world
    = (Normal (Some (mkState
         (Some errs)
         (Some "Missing Fields. Failed to Create User, please try again."))),
       one_user_world).
Proof.
  eexists.
  exact (register_invalid_no_effect (H := reference_runtime) None
           (register_form "not-an-address" "" "short" "short") one_user_world
           _ eq_refl).
Defined.

(** The right password: the sign-in establishes the session and raises
    the navigation signal, which leaves [authenticate]. *)
Lemma authenticate_rethrows_witness :
  authenticate (H := reference_runtime) None
    [("email", StringEntry "ada@example.com");
     ("password", StringEntry "lovelace")]
    one_user_world
  = (Throw (RedirectError "/dashboard"),
     set_session (Some "ada@example.com") one_user_world).
Proof.
  apply (authenticate_rethrows (H := reference_runtime) None
           [("email", StringEntry "ada@example.com");
            ("password", StringEntry "lovelace")]
           one_user_world (RedirectError "/dashboard")
           (set_session (Some "ada@example.com") one_user_world) eq_refl).
  intros type. discriminate.
Defined.

(** A fresh e-mail while the provider is down: the generic message, and
    the new row is in the table. *)
Lemma register_signIn_failure_witness :
  ∃ w2,
    register (H := reference_runtime) None
      (register_form "grace@example.com" "Grace" "hopper1" "hopper1")
      provider_down_world
    = (Normal (Some (message_only "Something went wrong, please try again.")),
       w2)
    ∧ user_email <$> users w2 = ["ada@example.com"; "grace@example.com"].
Proof.
  eexists. split.
  - apply (register_signIn_failure (H := reference_runtime) None
             (register_form "grace@example.com" "Grace" "hopper1" "hopper1")
             provider_down_world
             (mkRegisterData "grace@example.com" "Grace" "hopper1" "hopper1")
             _ (AuthError "CallbackRouteError") _ eq_refl eq_refl eq_refl);
      [discriminate|reflexivity].
  - reflexivity.
Defined.

(** * More of the actions

    Properties read off the remaining paths of [action.ts] and
    [auth.config.ts]: what the schemas accept, what each action stores,
    what it leaves alone, and how the invoice actions compose. *)

(** ** Rows and the [UPDATE] *)

Lemma update_row_id id customer_id amount status row :
  invoice_id (update_row id customer_id amount status row) = invoice_id row.
Proof. apply update_row_frame. Qed.

Lemma update_row_idem id customer_id amount status row :
  update_row id customer_id amount status
    (update_row id customer_id amount status row)
  = update_row id customer_id amount status row.
Proof.
  unfold update_row at 2 3.
  destruct (String.eqb_spec (invoice_id row) id) as [Heq|Hne].
  - unfold update_row. cbn. by rewrite (proj2 (String.eqb_eq _ _) Heq).
  - unfold update_row. by rewrite (proj2 (String.eqb_neq _ _) Hne).
Qed.

Lemma update_row_matching id customer_id amount status row :
  invoice_id row = id →
  update_row id customer_id amount status row
  = mkInvoice id customer_id amount status (invoice_date row).
Proof.
  intros Heq. unfold update_row.
  by rewrite (proj2 (String.eqb_eq _ _) Heq), Heq.
Qed.

Lemma map_update_row_unknown id customer_id amount status rows :
  id ∉ map invoice_id rows →
  map (update_row id customer_id amount status) rows = rows.
Proof.
  induction rows as [|row rows IH]; [done|]. cbn.
  intros [Hrow Hrows]%not_elem_of_cons.
  rewrite IH by done. f_equal.
  apply update_row_frame. congruence.
Qed.

Lemma filter_other_update_row id customer_id amount status rows :
  filter (λ row, invoice_id row ≠ id)
         (map (update_row id customer_id amount status) rows)
  = filter (λ row, invoice_id row ≠ id) rows.
Proof.
  induction rows as [|row rows IH]; [done|]. cbn [map].
  rewrite !filter_cons, IH, update_row_id.
  destruct (decide (invoice_id row ≠ id)) as [Hne|Heq]; [|done].
  f_equal. by apply update_row_frame.
Qed.

Lemma filter_other_unknown id (rows : list InvoiceRow) :
  id ∉ map invoice_id rows →
  filter (λ row, invoice_id row ≠ id) rows = rows.
Proof.
  induction rows as [|row rows IH]; [done|]. cbn [map].
  intros [Hrow Hrows]%not_elem_of_cons.
  rewrite filter_cons, decide_True by congruence. by rewrite IH.
Qed.

(** [deleteInvoice], run. *)
Lemma deleteInvoice_run id w :
  deleteInvoice id w
  = match db_fault w with
    | Some _ =>
        (Normal (message_only "Database Error: Failed to Delete Invoice."), w)
    | None =>
        (Normal (message_only "Deleted Invoice."),
         set_revalidated (λ paths, paths ++ ["/dashboard/invoices"])
           (set_invoices (filter (λ row, invoice_id row ≠ id)) w))
    end.
Proof.
  unfold deleteInvoice, try_catch, mbind, action_bind, sql_delete_invoice.
  by destruct (db_fault w).
Qed.


(** [split('T')[0]] *)
Lemma split_head_cons sep c s :
  split_head sep (String c s)
  = if Ascii.eqb c sep then EmptyString else String c (split_head sep s).
Proof. reflexivity. Qed.

Lemma split_head_before sep day time :
  without_char sep day →
  split_head sep (day +:+ String sep time) = day.
Proof.
  unfold without_char. induction day as [|c day IH].
  - intros _. change ("" +:+ String sep time) with (String sep time).
    rewrite split_head_cons. by rewrite Ascii.eqb_refl.
  - intros [Hc Hday]%Forall_cons.
    change (String c day +:+ String sep time)
      with (String c (day +:+ String sep time)).
    rewrite split_head_cons.
    rewrite (proj2 (Ascii.eqb_neq _ _) Hc). by rewrite IH.
Qed.

(** ** What the schemas accept *)

Section acceptance.
Context `{Runtime}.

(** X6: the invoice schema of createInvoice and updateInvoice accepts a
    submission exactly when customerId is submitted as a string (the empty
    string included), amount coerces to a number that is not NaN and is
    above zero, and status is the string pending or paid. *)
Theorem invoice_schema_accepts_exactly formData :
  (∃ data,
     safeParse (CreateInvoice_parse (formData_get "customerId" formData)
                  (formData_get "amount" formData)
                  (formData_get "status" formData))
     = SafeParseSuccess data)
  ↔ (∃ customer, formData_get "customerId" formData = Some (StringEntry customer))
    ∧ PrimFloat.is_nan (Number (formData_get "amount" formData)) = false
    ∧ PrimFloat.leb (Number (formData_get "amount" formData)) 0 = false
    ∧ (formData_get "status" formData = Some (StringEntry "pending")
       ∨ formData_get "status" formData = Some (StringEntry "paid")).
Proof.
  split.
  - intros [data (Hc & Hn & Hnan & Hle & Hs & Hv)%invoice_validation_success].
    rewrite Hn. split_and!; [by eexists|done|done|].
    destruct Hv as [Hv|Hv]; rewrite Hv in Hs; auto.
  - intros ([customer Hc] & Hnan & Hle & Hs).
    destruct Hs as [Hs|Hs].
    + exists (mkInvoiceData customer (Number (formData_get "amount" formData))
                            "pending").
      apply invoice_validation_success. cbn. naive_solver.
    + exists (mkInvoiceData customer (Number (formData_get "amount" formData))
                            "paid").
      apply invoice_validation_success. cbn. naive_solver.
Qed.

(** X7: the messages of a rejected createInvoice submission for missing
    and unknown fields: a missing customerId carries "Please select a
    customer.", a missing status "Please select an invoice status.", a
    missing amount (coerced to 0) "Please enter an amount greater than
    $0.", and a status string outside the enumeration carries Zod's
    invalid-enum message, not the status message of the schema. *)
Theorem createInvoice_field_messages prevState formData w issues :
  safeParse (CreateInvoice_parse (formData_get "customerId" formData)
               (formData_get "amount" formData) (formData_get "status" formData))
    = SafeParseError issues →
  createInvoice prevState formData w
  = (Normal (mkState (Some (fieldErrors issues))
                     (Some "Missing Fields. Failed to Create Invoice.")), w)
  ∧ (formData_get "customerId" formData = None →
     fieldErrors issues !! "customerId" = Some ["Please select a customer."])
  ∧ (formData_get "status" formData = None →
     fieldErrors issues !! "status" = Some ["Please select an invoice status."])
  ∧ (formData_get "amount" formData = None →
     fieldErrors issues !! "amount"
     = Some ["Please enter an amount greater than $0."])
  ∧ (∀ value,
       formData_get "status" formData = Some (StringEntry value) →
       value ≠ "pending" → value ≠ "paid" →
       fieldErrors issues !! "status"
       = Some ["Invalid enum value. Expected 'pending' | 'paid', received '"
               +:+ value +:+ "'"]).
Proof.
  intros Hparse.
  split; [unfold createInvoice; by rewrite Hparse|].
  apply safeParse_error in Hparse as [-> _].
  destruct (CreateInvoice_fieldErrors (formData_get "customerId" formData)
              (formData_get "amount" formData) (formData_get "status" formData))
    as (Hc & Ha & Hs).
  split_and!.
  - intros Hnone. by rewrite Hc, Hnone.
  - intros Hnone. by rewrite Hs, Hnone.
  - intros Hnone. by rewrite Ha, Hnone.
  - intros value Hvalue Hpending Hpaid. rewrite Hs, Hvalue.
    unfold FormSchema_status, enum_parse.
    rewrite bool_decide_eq_false_2; [done|]. set_solver.
Qed.

Lemma string_parse_OK invalid_type_error checks path input value :
  (string_parse invalid_type_error checks path input).1 = OK value
  ↔ input = Some (StringEntry value)
    ∧ flat_map (string_check_issue path value) checks = [].
Proof.
  unfold string_parse. destruct input as [[data|]|]; cbn; [|naive_solver..].
  destruct (flat_map (string_check_issue path data) checks) eqn:Hissues.
  - split; [intros [= ->]; by rewrite Hissues|naive_solver].
  - split; [done|]. intros [[= ->] Hnil]. congruence.
Qed.

Lemma check_email_passes path value :
  flat_map (string_check_issue path value) [check_email] = []
  ↔ emailRegex_test value = true.
Proof. cbn. destruct (emailRegex_test value); naive_solver. Qed.

Lemma check_min_passes path value bound :
  flat_map (string_check_issue path value) [check_min bound] = []
  ↔ bound ≤ String.length value.
Proof.
  cbn [flat_map string_check_issue].
  destruct (Nat.ltb_spec (String.length value) bound); cbn; [|done].
  split; [done|lia].
Qed.

Lemma RegisterSchema_parse_OK email name password confirm data :
  (RegisterSchema_parse email name password confirm).1 = OK data ↔
  (string_parse None [check_email] ["email"] email).1 = OK (reg_email data)
  ∧ (string_parse None [check_min 1] ["name"] name).1 = OK (reg_name data)
  ∧ (string_parse None [check_min 6] ["password"] password).1
    = OK (reg_password data)
  ∧ (string_parse None [check_min 6] ["confirmPassword"] confirm).1
    = OK (reg_confirmPassword data).
Proof.
  unfold RegisterSchema_parse, object_key, object_start. cbn [fst snd].
  destruct (string_parse None [check_email] ["email"] email).1,
    (string_parse None [check_min 1] ["name"] name).1,
    (string_parse None [check_min 6] ["password"] password).1,
    (string_parse None [check_min 6] ["confirmPassword"] confirm).1,
    data; cbn; naive_solver.
Qed.

Lemma safeParse_refine_success {A} (check : A → bool) message path
    (inner : ParseResult A) data :
  safeParse (refine check message path inner) = SafeParseSuccess data
  ↔ inner.1 = OK data ∧ check data = true.
Proof.
  destruct inner as [[value|value|] issues]; cbn;
    [destruct (check value) eqn:Hcheck|destruct (check value)|]; cbn;
    (split; [intros [= <-]; by split|intros [[= <-] Hdata]; congruence]).
Qed.

(** X8: the registration schema accepts a submission exactly when all
    four fields are submitted as strings, the e-mail matches the pattern,
    the name is not empty, the password has at least 6 characters and the
    confirmation is the same string; the validated data are those
    strings. *)
Theorem register_schema_accepts_exactly formData data :
  safeParse (FullRegisterSchema_parse
               (formData_get "email" formData) (formData_get "name" formData)
               (formData_get "password" formData)
               (formData_get "confirm-password" formData))
    = SafeParseSuccess data
  ↔ formData_get "email" formData = Some (StringEntry (reg_email data))
    ∧ emailRegex_test (reg_email data) = true
    ∧ formData_get "name" formData = Some (StringEntry (reg_name data))
    ∧ 1 ≤ String.length (reg_name data)
    ∧ formData_get "password" formData = Some (StringEntry (reg_password data))
    ∧ 6 ≤ String.length (reg_password data)
    ∧ formData_get "confirm-password" formData
      = Some (StringEntry (reg_password data))
    ∧ reg_confirmPassword data = reg_password data.
Proof.
  unfold FullRegisterSchema_parse.
  rewrite safeParse_refine_success, RegisterSchema_parse_OK.
  rewrite !string_parse_OK, check_email_passes, !check_min_passes.
  rewrite bool_decide_eq_true.
  split.
  - intros [Hkeys Heq]. rewrite Heq in Hkeys. destruct_and!. by split_and!.
  - intros Hkeys. destruct_and!.
    match goal with Heq : reg_confirmPassword data = _ |- _ => rewrite Heq end.
    by split_and!.
Qed.

End acceptance.

(** ** The invoice actions on the table *)

Section invoice_table.
Context `{Runtime}.

(** X9: a valid updateInvoice against a store that is up leaves by the
    navigation signal for the invoices list after invalidating that path,
    and in the table every row with the given id then holds the submitted
    customer, the amount times 100 and the submitted status, with the date
    it had; as many rows carry the id as before. *)
Theorem updateInvoice_sets_columns id formData w data :
  safeParse (UpdateInvoice_parse (formData_get "customerId" formData)
               (formData_get "amount" formData) (formData_get "status" formData))
    = SafeParseSuccess data →
  db_fault w = None →
  ∃ w',
    updateInvoice id formData w
    = (Throw (RedirectError "/dashboard/invoices"), w')
    ∧ revalidated w' = revalidated w ++ ["/dashboard/invoices"]
    ∧ (∀ i before,
         invoices w !! i = Some before →
         invoice_id before = id →
         invoices w' !! i
         = Some (mkInvoice id (customerId data) (amountInCents (amount data))
                           (status data) (invoice_date before)))
    ∧ map invoice_id (invoices w') = map invoice_id (invoices w).
Proof.
  intros Hparse Hup. eexists. split; [by apply updateInvoice_valid|].
  cbn. split_and!; [done| |].
  - intros i before Hi Hid.
    change (map ?f ?l) with (f <$> l). rewrite list_lookup_fmap, Hi. cbn.
    by rewrite update_row_matching.
  - rewrite map_map. apply map_ext. intros row. apply update_row_id.
Qed.

(** X10: a valid updateInvoice for an id that no row carries changes no
    row, and still invalidates the invoices path and navigates: the
    action does not look at the row count of the statement. *)
Theorem updateInvoice_unknown_id id formData w data :
  safeParse (UpdateInvoice_parse (formData_get "customerId" formData)
               (formData_get "amount" formData) (formData_get "status" formData))
    = SafeParseSuccess data →
  db_fault w = None →
  id ∉ map invoice_id (invoices w) →
  updateInvoice id formData w
  = (Throw (RedirectError "/dashboard/invoices"),
     set_revalidated (λ paths, paths ++ ["/dashboard/invoices"]) w).
Proof.
  intros Hparse Hup Hunknown.
  rewrite (updateInvoice_valid _ _ _ _ Hparse Hup). f_equal.
  unfold set_invoices, set_revalidated. cbn.
  by rewrite map_update_row_unknown.
Qed.

(** X11: updateInvoice is idempotent on the table: submitting the same
    update a second time leaves the invoices as the first left them. *)
Theorem updateInvoice_idempotent id formData w :
  invoices (updateInvoice id formData (updateInvoice id formData w).2).2
  = invoices (updateInvoice id formData w).2.
Proof.
  destruct (safeParse (UpdateInvoice_parse (formData_get "customerId" formData)
              (formData_get "amount" formData) (formData_get "status" formData)))
    as [data|issues] eqn:Hparse.
  - destruct (db_fault w) as [error|] eqn:Hfault.
    + by rewrite !(updateInvoice_store_down _ _ _ _ _ Hparse Hfault).
    + rewrite (updateInvoice_valid _ _ w _ Hparse Hfault). cbn [snd].
      rewrite (updateInvoice_valid _ _ _ _ Hparse); [|exact Hfault].
      cbn. rewrite map_map. apply map_ext. intros row. apply update_row_idem.
  - assert (∀ w0, updateInvoice id formData w0 = (Throw (ZodError issues), w0))
      as Hthrow by (intros w0; unfold updateInvoice, parse; by rewrite Hparse).
    by rewrite !Hthrow.
Qed.

(** X12: a valid updateInvoice against a store whose statement fails
    returns the message "Database Error: Failed to Update Invoice." and
    changes nothing: no row, no invalidation, no navigation. *)
Theorem updateInvoice_store_failure id formData w data error w' :
  safeParse (UpdateInvoice_parse (formData_get "customerId" formData)
               (formData_get "amount" formData) (formData_get "status" formData))
    = SafeParseSuccess data →
  sql_update_invoice id (customerId data) (amountInCents (amount data))
                     (status data) w
    = (Throw error, w') →
  updateInvoice id formData w
  = (Normal (message_only "Database Error: Failed to Update Invoice."), w)
  ∧ w' = w.
Proof.
  intros Hparse Hfail.
  assert (w' = w) as ->.
  { revert Hfail. unfold sql_update_invoice.
    destruct (db_fault w); congruence. }
  split; [|done]. unfold updateInvoice, parse. rewrite Hparse.
  unfold mbind, action_bind, mret, action_ret, try_catch.
  by rewrite Hfail.
Qed.

(** X13: after a deleteInvoice against a store that is up, the table
    holds exactly the rows it held whose id is not the given one, in
    their order, and the users are as before. *)
Theorem deleteInvoice_removes_exactly id w :
  db_fault w = None →
  (∀ row,
     row ∈ invoices (deleteInvoice id w).2
     ↔ row ∈ invoices w ∧ invoice_id row ≠ id)
  ∧ sublist (invoices (deleteInvoice id w).2) (invoices w)
  ∧ (id ∉ map invoice_id (invoices (deleteInvoice id w).2))
  ∧ users (deleteInvoice id w).2 = users w.
Proof.
  intros Hup. rewrite deleteInvoice_run, Hup. cbn. split_and!; [| | |done].
  - intros row. rewrite list_elem_of_filter. naive_solver.
  - apply sublist_filter.
  - change (map ?f ?l) with (f <$> l). rewrite list_elem_of_fmap.
    intros (row & -> & Hrow%list_elem_of_filter). naive_solver.
Qed.

(** X14: deleteInvoice is idempotent on the table: deleting the same id
    again leaves the invoices as the first delete left them. *)
Theorem deleteInvoice_idempotent id w :
  invoices (deleteInvoice id (deleteInvoice id w).2).2
  = invoices (deleteInvoice id w).2.
Proof.
  rewrite (deleteInvoice_run id w).
  destruct (db_fault w) as [error|] eqn:Hfault; cbn [snd].
  - by rewrite deleteInvoice_run, Hfault.
  - rewrite deleteInvoice_run. cbn. rewrite Hfault. cbn.
    rewrite list_filter_filter. apply list_filter_iff. naive_solver.
Qed.

(** X15: deleting an invoice after updating it gives the table that
    deleting it at once gives: the update keeps every id, so the delete
    removes the same rows and the other rows were never changed. *)
Theorem delete_after_update id formData w :
  invoices (deleteInvoice id (updateInvoice id formData w).2).2
  = invoices (deleteInvoice id w).2.
Proof.
  rewrite (deleteInvoice_run id w).
  destruct (safeParse (UpdateInvoice_parse (formData_get "customerId" formData)
              (formData_get "amount" formData) (formData_get "status" formData)))
    as [data|issues] eqn:Hparse.
  - destruct (db_fault w) as [error|] eqn:Hfault.
    + rewrite (updateInvoice_store_down _ _ _ _ _ Hparse Hfault). cbn [snd].
      by rewrite deleteInvoice_run, Hfault.
    + rewrite (updateInvoice_valid _ _ _ _ Hparse Hfault). cbn [snd].
      rewrite deleteInvoice_run. cbn. rewrite Hfault. cbn.
      apply filter_other_update_row.
  - assert (updateInvoice id formData w = (Throw (ZodError issues), w))
      as -> by (unfold updateInvoice, parse; by rewrite Hparse).
    cbn [snd]. by rewrite deleteInvoice_run.
Qed.

(** X16: deleteInvoice for an id that no row carries, against a store
    that is up, removes nothing and still invalidates the invoices path
    and returns "Deleted Invoice.". *)
Theorem deleteInvoice_unknown_id id w :
  db_fault w = None →
  id ∉ map invoice_id (invoices w) →
  deleteInvoice id w
  = (Normal (message_only "Deleted Invoice."),
     set_revalidated (λ paths, paths ++ ["/dashboard/invoices"]) w).
Proof.
  intros Hup Hunknown. rewrite deleteInvoice_run, Hup. f_equal.
  unfold set_invoices, set_revalidated. cbn.
  by rewrite filter_other_unknown.
Qed.

(** X17: whatever createInvoice does, it keeps the users and the session,
    and it keeps every invoice row: the table afterwards is the table
    before, followed by at most one new row. *)
Theorem createInvoice_frame prevState formData w :
  users (createInvoice prevState formData w).2 = users w
  ∧ session (createInvoice prevState formData w).2 = session w
  ∧ ∃ added,
      invoices (createInvoice prevState formData w).2 = invoices w ++ added
      ∧ length added ≤ 1.
Proof.
  destruct (safeParse (CreateInvoice_parse (formData_get "customerId" formData)
              (formData_get "amount" formData) (formData_get "status" formData)))
    as [data|issues] eqn:Hparse.
  - destruct (db_fault w) as [error|] eqn:Hfault.
    + assert (createInvoice prevState formData w
              = (Normal (message_only "Database Error: Failed to Create Invoice."),
                 w)) as ->.
      { unfold createInvoice. rewrite Hparse.
        unfold mbind, action_bind, today, try_catch, sql_insert_invoice.
        by rewrite Hfault. }
      split_and!; [done..|]. exists []. split; [by rewrite app_nil_r|cbn; lia].
    + rewrite (createInvoice_valid _ _ _ _ Hparse Hfault).
      split_and!; [done..|]. eexists [_]. split; [done|cbn; lia].
  - assert (createInvoice prevState formData w
            = (Normal (mkState (Some (fieldErrors issues))
                 (Some "Missing Fields. Failed to Create Invoice.")), w)) as ->
      by (unfold createInvoice; by rewrite Hparse).
    split_and!; [done..|]. exists []. split; [by rewrite app_nil_r|cbn; lia].
Qed.

(** X18: the date createInvoice stores is the part of the request's ISO
    timestamp before its first T: for a timestamp made of a day without T,
    a T and a time, the new row is the last of the table and its date is
    the day. *)
Theorem createInvoice_date prevState formData w data day time :
  safeParse (CreateInvoice_parse (formData_get "customerId" formData)
               (formData_get "amount" formData) (formData_get "status" formData))
    = SafeParseSuccess data →
  db_fault w = None →
  now_iso w = day +:+ String "T" time →
  without_char "T" day →
  ∃ row,
    last (invoices (createInvoice prevState formData w).2) = Some row
    ∧ invoice_date row = day
    ∧ invoice_customer_id row = customerId data
    ∧ invoice_status row = status data.
Proof.
  intros Hparse Hup Hnow Hday.
  rewrite (createInvoice_valid _ _ _ _ Hparse Hup). cbn.
  eexists. rewrite last_snoc. split; [done|]. cbn.
  rewrite Hnow. by rewrite split_head_before.
Qed.

End invoice_table.

(** ** Registration, sign-in and the callback, continued *)

Section accounts.
Context `{Runtime}.

(** X19: a valid registration with a fresh e-mail against a store that is
    up inserts one user row holding the submitted e-mail and name and the
    bcrypt hash (cost 10) of the password -- never the password itself --
    then signs in with the e-mail and the plain password; when that
    sign-in returns, [register] returns [undefined]. *)
Theorem register_success prevState formData w data w2 :
  safeParse (FullRegisterSchema_parse
               (formData_get "email" formData) (formData_get "name" formData)
               (formData_get "password" formData)
               (formData_get "confirm-password" formData))
    = SafeParseSuccess data →
  db_fault w = None →
  reg_email data ∉ map user_email (users w) →
  signIn "credentials"
         [("email", StringEntry (reg_email data));
          ("password", StringEntry (reg_password data))]
         (set_users (λ rows, rows ++ [mkUser (reg_email data)
                                         (bcrypt_hash (reg_password data) 10)
                                         (reg_name data)]) w)
    = (Normal tt, w2) →
  register prevState formData w = (Normal None, w2).
Proof.
  intros Hparse Hup Hfresh Hsign.
  unfold register. rewrite Hparse.
  unfold try_catch, mbind, action_bind, createUser, sql_insert_user.
  rewrite Hup, bool_decide_eq_false_2 by done. cbn.
  by rewrite Hsign.
Qed.

(** X20: when the insert of a valid registration fails with an error
    other than the unique-constraint violation, [register] returns
    "Something went wrong, please try again." -- not the "Database error"
    message of the row-count test -- and nothing is inserted. *)
Theorem register_store_failure prevState formData w data error w' :
  safeParse (FullRegisterSchema_parse
               (formData_get "email" formData) (formData_get "name" formData)
               (formData_get "password" formData)
               (formData_get "confirm-password" formData))
    = SafeParseSuccess data →
  createUser (reg_email data) (bcrypt_hash (reg_password data) 10)
             (reg_name data) w
    = (Throw error, w') →
  error_code error ≠ Some "23505" →
  isRedirectError error = false →
  register prevState formData w
  = (Normal (Some (message_only "Something went wrong, please try again.")), w)
  ∧ w' = w.
Proof.
  intros Hparse Hinsert Hcode Hredirect.
  pose proof (sql_insert_user_throw _ _ _ _ Hinsert) as ->.
  split; [|done]. unfold register. rewrite Hparse.
  unfold try_catch, mbind, action_bind. rewrite Hinsert.
  by rewrite bool_decide_eq_false_2, Hredirect.
Qed.

(** X21: [authenticate] returns a message only when the sign-in threw an
    [AuthError], and then one of its two messages: "Invalid credentials."
    for the type CredentialsSignin and "Something went wrong." for any
    other type; the world is the one the sign-in left. *)
Theorem authenticate_message_only_for_AuthError prevState formData w text w' :
  authenticate prevState formData w = (Normal (Some text), w') →
  ∃ type,
    signIn "credentials" formData w = (Throw (AuthError type), w')
    ∧ ((type = "CredentialsSignin" ∧ text = "Invalid credentials.")
       ∨ (type ≠ "CredentialsSignin" ∧ text = "Something went wrong.")).
Proof.
  unfold authenticate, try_catch, mbind, action_bind.
  destruct (signIn "credentials" formData w) as [[[]|error] w1];
    [discriminate|].
  destruct error as [type| | | |]; try discriminate.
  destruct (String.eqb_spec type "CredentialsSignin") as [->|Hne];
    intros [= <- <-]; eexists; (split; [reflexivity|]); auto.
Qed.

End accounts.

(** X22: the callback answers [false] exactly for a request without a
    user to a path starting with /dashboard; it answers with a redirect
    exactly for a request with a user to another path, and the target is
    /dashboard on the origin of the request, without its query; every
    other request is answered [true]. *)
Theorem authorized_answers auth nextUrl :
  (authorized auth nextUrl = Granted false
   ↔ isOnDashboard nextUrl = true ∧ isLoggedIn auth = false)
  ∧ (∀ target,
       authorized auth nextUrl = ResponseRedirect target
       ↔ isOnDashboard nextUrl = false ∧ isLoggedIn auth = true
         ∧ target = mkURL (origin nextUrl) "/dashboard" "")
  ∧ (authorized auth nextUrl = Granted true
     ↔ isOnDashboard nextUrl = isLoggedIn auth).
Proof.
  unfold authorized, dashboard_url.
  destruct (isOnDashboard nextUrl), (isLoggedIn auth); naive_solver.
Qed.

(** ** Closed instances, continued *)

(** An empty submission: the three messages for missing fields. *)
Lemma createInvoice_field_messages_witness :
  ∃ issues,
    createInvoice (H := reference_runtime) (message_only "") [] two_invoice_world
    = (Normal (mkState (Some (fieldErrors issues))
                       (Some "Missing Fields. Failed to Create Invoice.")),
       two_invoice_world)
    ∧ fieldErrors issues !! "customerId" = Some ["Please select a customer."]
    ∧ fieldErrors issues !! "status" = Some ["Please select an invoice status."]
    ∧ fieldErrors issues !! "amount"
      = Some ["Please enter an amount greater than $0."].
Proof.
  eexists.
  destruct (createInvoice_field_messages (H := reference_runtime)
              (message_only "") [] two_invoice_world _ eq_refl)
    as (Hrun & Hc & Hs & Ha & _).
  split_and!; [exact Hrun | exact (Hc eq_refl) | exact (Hs eq_refl)
              | exact (Ha eq_refl)].
Defined.

(** Updating invoice a1: the row holds the new columns and its old date. *)
Lemma updateInvoice_sets_columns_witness :
  ∃ w',
    updateInvoice (H := reference_runtime) "a1"
      (invoice_form "c9" "19.99" "paid") two_invoice_world
    = (Throw (RedirectError "/dashboard/invoices"), w')
    ∧ revalidated w' = ["/dashboard/invoices"]
    ∧ invoices w' !! 0
      = Some (mkInvoice "a1" "c9" 1998.9999999999998 "paid" "2024-01-02").
Proof.
  destruct (updateInvoice_sets_columns (H := reference_runtime) "a1"
              (invoice_form "c9" "19.99" "paid") two_invoice_world
              (mkInvoiceData "c9" 19.99 "paid") eq_refl eq_refl)
    as (w' & Hrun & Hpaths & Hrows & _).
  exists w'. split_and!; [exact Hrun | exact Hpaths|].
  exact (Hrows 0 (mkInvoice "a1" "c1" 1500 "pending" "2024-01-02")
               eq_refl eq_refl).
Defined.

(** Updating an id that no invoice carries. *)
Lemma updateInvoice_unknown_id_witness :
  updateInvoice (H := reference_runtime) "zz"
    (invoice_form "c9" "19.99" "paid") two_invoice_world
  = (Throw (RedirectError "/dashboard/invoices"),
     set_revalidated (λ _, ["/dashboard/invoices"]) two_invoice_world).
Proof.
  apply (updateInvoice_unknown_id (H := reference_runtime) "zz"
           (invoice_form "c9" "19.99" "paid") two_invoice_world
           (mkInvoiceData "c9" 19.99 "paid") eq_refl eq_refl).
  cbn. set_solver.
Defined.

(** A valid update against a store that is down. *)
Lemma updateInvoice_store_failure_witness :
  updateInvoice (H := reference_runtime) "a1"
    (invoice_form "c9" "19.99" "paid") store_down_world
  = (Normal (message_only "Database Error: Failed to Update Invoice."),
     store_down_world).
Proof.
  exact (proj1 (updateInvoice_store_failure (H := reference_runtime) "a1"
                  (invoice_form "c9" "19.99" "paid") store_down_world
                  (mkInvoiceData "c9" 19.99 "paid") (DatabaseError "08006")
                  store_down_world eq_refl eq_refl)).
Defined.

(** Deleting invoice a1 leaves invoice b2. *)
Lemma deleteInvoice_removes_exactly_witness :
  mkInvoice "b2" "c2" 990 "paid" "2024-02-03"
    ∈ invoices (deleteInvoice "a1" two_invoice_world).2
  ∧ "a1" ∉ map invoice_id (invoices (deleteInvoice "a1" two_invoice_world).2).
Proof.
  destruct (deleteInvoice_removes_exactly "a1" two_invoice_world eq_refl)
    as (Hrows & _ & Hgone & _).
  split; [|exact Hgone]. apply Hrows. split; [|discriminate].
  cbn. set_solver.
Defined.

(** Deleting an id that no invoice carries. *)
Lemma deleteInvoice_unknown_id_witness :
  deleteInvoice "zz" two_invoice_world
  = (Normal (message_only "Deleted Invoice."),
     set_revalidated (λ _, ["/dashboard/invoices"]) two_invoice_world).
Proof.
  apply (deleteInvoice_unknown_id "zz" two_invoice_world eq_refl).
  cbn. set_solver.
Defined.

(** A request at 2024-05-17T09:30:00.000Z stores the date 2024-05-17. *)
Lemma createInvoice_date_witness :
  ∃ row,
    last (invoices (createInvoice (H := reference_runtime) (message_only "")
                      (invoice_form "abc" "50" "pending") two_invoice_world).2)
    = Some row
    ∧ invoice_date row = "2024-05-17"
    ∧ invoice_customer_id row = "abc"
    ∧ invoice_status row = "pending".
Proof.
  apply (createInvoice_date (H := reference_runtime) (message_only "")
           (invoice_form "abc" "50" "pending") two_invoice_world
           (mkInvoiceData "abc" 50 "pending") "2024-05-17" "09:30:00.000Z"
           eq_refl eq_refl eq_refl).
  unfold without_char. cbn. repeat constructor; discriminate.
Defined.

(** A registration with a provider that returns: the stored password is
    the hash. *)
Lemma register_success_witness :
  register (H := returning_runtime) None
    (register_form "grace@example.com" "Grace" "hopper1" "hopper1")
    one_user_world
  = (Normal None,
     set_session (Some "grace@example.com")
       (set_users
          (λ _, [mkUser "ada@example.com" (tagged_hash "lovelace" 10) "Ada";
                 mkUser "grace@example.com" (tagged_hash "hopper1" 10) "Grace"])
          one_user_world)).
Proof.
  apply (register_success (H := returning_runtime) None
           (register_form "grace@example.com" "Grace" "hopper1" "hopper1")
           one_user_world
           (mkRegisterData "grace@example.com" "Grace" "hopper1" "hopper1")
           _ eq_refl eq_refl); [|reflexivity].
  cbn. intros [[=]|[]%elem_of_nil]%elem_of_cons.
Defined.

(** A valid registration against a store that is down. *)
Lemma register_store_failure_witness :
  register (H := reference_runtime) None
    (register_form "grace@example.com" "Grace" "hopper1" "hopper1")
    store_down_world
  = (Normal (Some (message_only "Something went wrong, please try again.")),
     store_down_world).
Proof.
  apply (register_store_failure (H := reference_runtime) None
           (register_form "grace@example.com" "Grace" "hopper1" "hopper1")
           store_down_world
           (mkRegisterData "grace@example.com" "Grace" "hopper1" "hopper1")
           (DatabaseError "08006") store_down_world eq_refl eq_refl);
    [discriminate|reflexivity].
Defined.

(** The message of a wrong password comes from an [AuthError]. *)
Lemma authenticate_message_witness :
  ∃ type,
    signIn (Runtime := reference_runtime) "credentials"
      [("email", StringEntry "ada@example.com"); ("password", StringEntry "byron")]
      one_user_world
    = (Throw (AuthError type), one_user_world)
    ∧ ((type = "CredentialsSignin"
        ∧ "Invalid credentials." = "Invalid credentials.")
       ∨ (type ≠ "CredentialsSignin"
          ∧ "Invalid credentials." = "Something went wrong.")).
Proof.
  exact (authenticate_message_only_for_AuthError (H := reference_runtime) None
           [("email", StringEntry "ada@example.com");
            ("password", StringEntry "byron")]
           one_user_world "Invalid credentials." one_user_world eq_refl).
Defined.
